(** * The decision-and-state layer of the market maker

    A shallow embedding of these pieces of the TypeScript sources:

    - the orderbook reconciler of the Aftermath adapter
      ([AftermathOrderbookSubscription], with [getOrderbook]),
    - the quote generator of the market-making bot ([Quoter]),
    - the fair-price calculator ([FairPriceCalculator], pricing/fair-price.ts),
    - the configuration validator ([validateConfig], bots/mm/config.ts),
    - the position manager of the bot ([PositionManager]),
    - the account functions of the Aftermath adapter ([getAccountCap],
      [getPositions]).

    Number model.  A JavaScript [number] that carries a price, a size or a
    configuration amount is an exact rational ([Q]); nonces, timestamps and
    clock readings are integers ([Z]); counters are [nat].  Comparisons of
    numbers ([===], [<], [<=]) are the decidable comparisons of [Q], which
    agree with the IEEE comparisons on every finite double.  The rounding of
    binary64 arithmetic, [NaN] and the infinities are not part of the [Q]
    model: sums, products and quotients of [Q] are exact where the program
    rounds.  The theorems stated below over [Q] are meant not to lean on
    exactness: they are about case distinctions by comparison, about which
    expression a field is computed by, and about signs and bounds that
    rounding respects; a lemma that holds in exact arithmetic only says so.
    The rounding itself is studied for [roundToTick] in module [F64], over the
    primitive binary64 floats.  Logging is not modelled: it has no influence
    on any state. *)

From Stdlib Require Import ZArith QArith Qround Qabs Qpower Lqa Lia Floats Sorted.
From stdpp Require Import gmap strings list sorting.

Set Warnings "-inexact-float".

(** ** Numbers *)

(** [x < y] on numbers, as a boolean. *)
Definition Qltb (x y : Q) : bool := negb (Qle_bool y x).

(** [Array.prototype.findIndex]: the first index whose element satisfies the
    predicate; JavaScript's [-1] is [None]. *)
Fixpoint findIndex {A : Type} (f : A -> bool) (l : list A) : option nat :=
  match l with
  | [] => None
  | x :: l' => if f x then Some 0%nat else S <$> findIndex f l'
  end.

(** ** Orderbook reconciler *)

Module Reconciler.

(** A price level is the pair [[price, size]]. *)
Abbreviation PriceLevel := (Q * Q)%type.

(** [Orderbook] of types.ts; [nonce] is the optional field. *)
Record Orderbook : Type := mkOrderbook {
  symbol : string;
  bids : list PriceLevel;
  asks : list PriceLevel;
  timestamp : Z;
  nonce : option Z
}.

(** [AftermathOrderbook], the response of the snapshot endpoint. *)
Record AftermathOrderbook : Type := mkAftermathOrderbook {
  r_bids : list PriceLevel;
  r_asks : list PriceLevel;
  r_symbol : option string;
  r_timestamp : option Z;
  r_nonce : option Z
}.

(** [AftermathOrderbookDelta], one message of the SSE stream. *)
Record AftermathOrderbookDelta : Type := mkDelta {
  d_bids : list (Q * Q);
  d_asks : list (Q * Q);
  d_timestamp : Z;
  d_nonce : Z
}.

(** [x || d] on an optional string: [undefined] and the empty string are
    falsy. *)
Definition orString (x : option string) (d : string) : string :=
  match x with
  | Some s => if bool_decide (s = EmptyString) then d else s
  | None => d
  end.

(** [x || d] on an optional integer: [undefined] and [0] are falsy. *)
Definition orZ (x : option Z) (d : Z) : Z :=
  match x with
  | Some z => if (z =? 0)%Z then d else z
  | None => d
  end.

(** [getOrderbook]: the snapshot is the response taken as it is; [now] is
    the reading of [Date.now()]. *)
Definition getOrderbook (response : AftermathOrderbook) (chId : string)
    (now : Z) : Orderbook :=
  {| symbol := orString (r_symbol response) chId;
     bids := r_bids response;
     asks := r_asks response;
     timestamp := orZ (r_timestamp response) now;
     nonce := r_nonce response |}.

(** The comparison used by [applyPriceLevelDelta] to find the insertion
    point: [p < price] for bids, [p > price] for asks. *)
Definition beyond (isBid : bool) (price : Q) (lv : PriceLevel) : bool :=
  if isBid then Qltb (fst lv) price else Qltb price (fst lv).

Definition atPrice (price : Q) (lv : PriceLevel) : bool :=
  Qeq_bool (fst lv) price.

(** [applyPriceLevelDelta]; the array mutated in place is returned. *)
Definition applyPriceLevelDelta (levels : list PriceLevel) (price : Q)
    (amountDelta : Q) (isBid : bool) : list PriceLevel :=
  match findIndex (atPrice price) levels with
  | Some existingIndex =>
      match levels !! existingIndex with
      | Some (p, amount) =>
          let newAmount := (amount + amountDelta)%Q in
          if Qle_bool newAmount 0
          then delete existingIndex levels
          else <[existingIndex := (p, newAmount)]> levels
      | None => levels
      end
  | None =>
      if Qltb 0 amountDelta then
        match findIndex (beyond isBid price) levels with
        | Some insertIndex =>
            take insertIndex levels ++ (price, amountDelta) :: drop insertIndex levels
        | None => levels ++ [(price, amountDelta)]
        end
      else levels
  end.

(** The two [for ... of] loops of [applyDelta]. *)
Definition applySide (isBid : bool) (levels : list PriceLevel)
    (deltas : list (Q * Q)) : list PriceLevel :=
  foldl (fun lv pd => applyPriceLevelDelta lv (fst pd) (snd pd) isBid)
        levels deltas.

(** The nonce check of [applyDelta]:
    [book.nonce !== undefined && delta.nonce <= book.nonce]. *)
Definition isOutOfOrder (book : Orderbook) (delta : AftermathOrderbookDelta)
    : bool :=
  match nonce book with
  | Some n => (d_nonce delta <=? n)%Z
  | None => false
  end.

(** The body of [applyDelta] once the book has been found and the nonce
    check has passed. *)
Definition mutateBook (book : Orderbook) (delta : AftermathOrderbookDelta)
    : Orderbook :=
  {| symbol := symbol book;
     bids := applySide true (bids book) (d_bids delta);
     asks := applySide false (asks book) (d_asks delta);
     timestamp := d_timestamp delta;
     nonce := Some (d_nonce delta) |}.

(** The state of one [AftermathOrderbookSubscription]: the local books, the
    markets that have a callback, the markets with an open event source, and
    the books handed to callbacks so far (latest first). *)
Record Subscription : Type := mkSubscription {
  localOrderbooks : gmap string Orderbook;
  callbacks : gset string;
  eventSources : gset string;
  delivered : list (string * Orderbook)
}.

Definition notify (chId : string) (book : Orderbook) (s : Subscription)
    : list (string * Orderbook) :=
  if bool_decide (chId ∈ callbacks s)
  then (chId, book) :: delivered s
  else delivered s.

(** [applyDelta]. *)
Definition applyDelta (chId : string) (delta : AftermathOrderbookDelta)
    (s : Subscription) : Subscription :=
  match localOrderbooks s !! chId with
  | None => s
  | Some book =>
      if isOutOfOrder book delta then s
      else
        let book' := mutateBook book delta in
        {| localOrderbooks := <[chId := book']> (localOrderbooks s);
           callbacks := callbacks s;
           eventSources := eventSources s;
           delivered := notify chId book' s |}
  end.

(** [connectSSE], as far as the state goes: the market has an event source
    (again). *)
Definition connectSSE (chId : string) (s : Subscription) : Subscription :=
  {| localOrderbooks := localOrderbooks s;
     callbacks := callbacks s;
     eventSources := {[chId]} ∪ eventSources s;
     delivered := delivered s |}.

(** The [onerror] handler of the stream: the event source is closed and
    forgotten; the reconnection it schedules is a later [connectSSE]. *)
Definition streamError (chId : string) (s : Subscription) : Subscription :=
  {| localOrderbooks := localOrderbooks s;
     callbacks := callbacks s;
     eventSources := eventSources s ∖ {[chId]};
     delivered := delivered s |}.

(** [subscribeOrderbook], with the snapshot the venue answered: a market
    that is already streaming only has its callback replaced; otherwise the
    snapshot becomes the local book, is handed to the callback, and the
    stream is opened. *)
Definition subscribeOrderbook (chId : string) (snapshot : Orderbook)
    (s : Subscription) : Subscription :=
  if bool_decide (chId ∈ eventSources s) then
    {| localOrderbooks := localOrderbooks s;
       callbacks := {[chId]} ∪ callbacks s;
       eventSources := eventSources s;
       delivered := delivered s |}
  else
    connectSSE chId
      {| localOrderbooks := <[chId := snapshot]> (localOrderbooks s);
         callbacks := {[chId]} ∪ callbacks s;
         eventSources := eventSources s;
         delivered := (chId, snapshot) :: delivered s |}.

(** [unsubscribeOrderbook]. *)
Definition unsubscribeOrderbook (chId : string) (s : Subscription)
    : Subscription :=
  {| localOrderbooks := delete chId (localOrderbooks s);
     callbacks := callbacks s ∖ {[chId]};
     eventSources := eventSources s ∖ {[chId]};
     delivered := delivered s |}.

(** [disconnect]. *)
Definition disconnect (s : Subscription) : Subscription :=
  {| localOrderbooks := ∅; callbacks := ∅; eventSources := ∅;
     delivered := delivered s |}.

(** An empty subscription manager, as the constructor leaves it. *)
Definition newSubscription : Subscription :=
  {| localOrderbooks := ∅; callbacks := ∅; eventSources := ∅;
     delivered := [] |}.

(** What happens to one subscription manager: a snapshot answered to
    [subscribeOrderbook], a delta handed to [applyDelta], a stream error, the
    reconnection that follows it, an unsubscription, a disconnection. *)
Inductive Event : Type :=
  | Subscribed (chId : string) (snapshot : Orderbook)
  | DeltaReceived (chId : string) (delta : AftermathOrderbookDelta)
  | StreamFailed (chId : string)
  | Reconnected (chId : string)
  | Unsubscribed (chId : string)
  | Disconnected.

Definition step (s : Subscription) (e : Event) : Subscription :=
  match e with
  | Subscribed chId snapshot => subscribeOrderbook chId snapshot s
  | DeltaReceived chId delta => applyDelta chId delta s
  | StreamFailed chId => streamError chId s
  | Reconnected chId => connectSSE chId s
  | Unsubscribed chId => unsubscribeOrderbook chId s
  | Disconnected => disconnect s
  end.

Definition run (events : list Event) : Subscription :=
  foldl step newSubscription events.

(** *** The invariant of a side *)

(** [before isBid a b]: level [a] may stand in front of level [b], that is
    its price is strictly higher on the bid side and strictly lower on the
    ask side. *)
Definition before (isBid : bool) (a b : PriceLevel) : Prop :=
  if isBid then (fst b < fst a)%Q else (fst a < fst b)%Q.

Definition sortedSide (isBid : bool) (levels : list PriceLevel) : Prop :=
  StronglySorted (before isBid) levels.

(** No two positions of a side hold the same price. *)
Definition uniquePrices (levels : list PriceLevel) : Prop :=
  forall i j a b,
    levels !! i = Some a -> levels !! j = Some b ->
    (fst a == fst b)%Q -> i = j.

(** Bids strictly descending, asks strictly ascending. *)
Definition sortedBook (book : Orderbook) : Prop :=
  sortedSide true (bids book) /\ sortedSide false (asks book).

Definition wellFormed (book : Orderbook) : Prop :=
  sortedSide true (bids book) /\ sortedSide false (asks book)
  /\ uniquePrices (bids book) /\ uniquePrices (asks book).

(** The boolean test of [sortedSide] on adjacent levels. *)
Fixpoint sortedSideb (isBid : bool) (levels : list PriceLevel) : bool :=
  match levels with
  | a :: (b :: _) as rest =>
      (if isBid then Qltb (fst b) (fst a) else Qltb (fst a) (fst b))
      && sortedSideb isBid rest
  | _ => true
  end.

(** The size resting at a price: the first level with that price. *)
Fixpoint sizeAt (price : Q) (levels : list PriceLevel) : option Q :=
  match levels with
  | [] => None
  | lv :: rest => if atPrice price lv then Some (snd lv) else sizeAt price rest
  end.

(** *** The reconciliation rule in the words of the specification *)

(** The size a price holds after a signed change: an existing size is
    increased by the change and disappears when the sum is not positive; an
    absent price appears only with a positive change. *)
Definition sizeAfter (old : option Q) (sizeDelta : Q) : option Q :=
  match old with
  | Some a => if Qle_bool (a + sizeDelta) 0 then None else Some (a + sizeDelta)%Q
  | None => if Qltb 0 sizeDelta then Some sizeDelta else None
  end.

(** [reconciled isBid price sizeDelta levels levels']: the four cases of the
    rule.  [pre] is the part of the side in front of the level concerned. *)
Inductive reconciled (isBid : bool) (price sizeDelta : Q)
    : list PriceLevel -> list PriceLevel -> Prop :=
  | rec_update pre p a post :
      Forall (fun lv => ~ (fst lv == price)%Q) pre ->
      (p == price)%Q ->
      (0 < a + sizeDelta)%Q ->
      reconciled isBid price sizeDelta
        (pre ++ (p, a) :: post) (pre ++ (p, (a + sizeDelta)%Q) :: post)
  | rec_remove pre p a post :
      Forall (fun lv => ~ (fst lv == price)%Q) pre ->
      (p == price)%Q ->
      (a + sizeDelta <= 0)%Q ->
      reconciled isBid price sizeDelta (pre ++ (p, a) :: post) (pre ++ post)
  | rec_insert pre post :
      Forall (fun lv => ~ (fst lv == price)%Q) (pre ++ post) ->
      (0 < sizeDelta)%Q ->
      Forall (fun lv => beyond isBid price lv = false) pre ->
      (forall lv, head post = Some lv -> beyond isBid price lv = true) ->
      reconciled isBid price sizeDelta
        (pre ++ post) (pre ++ (price, sizeDelta) :: post)
  | rec_ignore levels :
      Forall (fun lv => ~ (fst lv == price)%Q) levels ->
      (sizeDelta <= 0)%Q ->
      reconciled isBid price sizeDelta levels levels.

(** The rule taken through the pairs of one side of a delta, in the order
    of the list: each pair starts from the side the pair before it left. *)
Inductive reconciledAll (isBid : bool)
    : list (Q * Q) -> list PriceLevel -> list PriceLevel -> Prop :=
  | recAll_nil levels : reconciledAll isBid [] levels levels
  | recAll_cons price sizeDelta rest levels mid levels' :
      reconciled isBid price sizeDelta levels mid ->
      reconciledAll isBid rest mid levels' ->
      reconciledAll isBid ((price, sizeDelta) :: rest) levels levels'.

(** A delta is accepted by a book that holds no nonce, and by a book whose
    nonce is smaller than the delta's. *)
Definition accepted (book : Orderbook) (delta : AftermathOrderbookDelta)
    : Prop :=
  match nonce book with
  | Some lastNonce => (lastNonce < d_nonce delta)%Z
  | None => True
  end.

(** Every book held is well formed. *)
Definition allWellFormed (s : Subscription) : Prop :=
  forall chId book, localOrderbooks s !! chId = Some book -> wellFormed book.

(** An event is admissible when the snapshot it carries, if any, is
    sorted. *)
Definition admissible (e : Event) : Prop :=
  match e with
  | Subscribed _ snapshot => sortedBook snapshot
  | _ => True
  end.

(** [getLocalOrderbook]. *)
Definition getLocalOrderbook (chId : string) (s : Subscription)
    : option Orderbook :=
  localOrderbooks s !! chId.

(** The getter [connected]: some event source is registered. *)
Definition connected (s : Subscription) : bool :=
  bool_decide (eventSources s <> ∅).

(** A run of deltas for one market, in the order of arrival. *)
Definition applyDeltas (chId : string) (deltas : list AftermathOrderbookDelta)
    (s : Subscription) : Subscription :=
  foldl (fun st delta => applyDelta chId delta st) s deltas.

(** Every level of a side has a positive size. *)
Definition positiveSide (levels : list PriceLevel) : Prop :=
  Forall (fun lv => (0 < snd lv)%Q) levels.

Definition positiveBook (book : Orderbook) : Prop :=
  positiveSide (bids book) /\ positiveSide (asks book).

(** The snapshot an event carries, if any, has positive sizes only. *)
Definition carriesPositive (e : Event) : Prop :=
  match e with
  | Subscribed _ snapshot => positiveBook snapshot
  | _ => True
  end.

(** The size a price ends with after a list of changes, each change at
    that price taken in turn by [sizeAfter]. *)
Definition netSize (q : Q) (old : option Q) (deltas : list (Q * Q))
    : option Q :=
  foldl (fun o pd => if Qeq_bool q (fst pd) then sizeAfter o (snd pd) else o)
        old deltas.

(** The largest nonce among the one held and those of a list of deltas. *)
Definition latestNonce (n : Z) (deltas : list AftermathOrderbookDelta) : Z :=
  foldl (fun m delta => Z.max m (d_nonce delta)) n deltas.

(** *** The scenario of the specification *)

Definition scenarioSnapshot : Orderbook :=
  {| symbol := "BTC"; bids := [(100, 5)%Q]; asks := [(101, 5)%Q];
     timestamp := 0; nonce := None |}.

Definition scenarioDelta : AftermathOrderbookDelta :=
  {| d_bids := [(100, -5)%Q]; d_asks := []; d_timestamp := 1; d_nonce := 1 |}.

(** The same book once it holds a nonce, and a delta for both of its
    sides. *)
Definition heldSnapshot : Orderbook :=
  {| symbol := "BTC"; bids := [(100, 5)%Q]; asks := [(101, 5)%Q];
     timestamp := 0; nonce := Some 0%Z |}.

Definition twoSidedDelta : AftermathOrderbookDelta :=
  {| d_bids := [(100, -5)%Q; (99, 2)%Q]; d_asks := [(101, -1)%Q; (102, 3)%Q];
     d_timestamp := 1; d_nonce := 1 |}.

(** A response of the venue that repeats a bid price, the snapshot made of
    it, and a delta for its ask side. *)
Definition repeatedResponse : AftermathOrderbook :=
  {| r_bids := [(100, 5)%Q; (100, 3)%Q]; r_asks := [(101, 5)%Q];
     r_symbol := None; r_timestamp := Some 1%Z; r_nonce := Some 7%Z |}.

Definition repeatedSnapshot : Orderbook :=
  getOrderbook repeatedResponse "BTC" 0.

Definition askDelta : AftermathOrderbookDelta :=
  {| d_bids := []; d_asks := [(102, 1)%Q]; d_timestamp := 1; d_nonce := 8 |}.

End Reconciler.

(** ** Shared types (types.ts) *)

Inductive Side : Type := buy | sell.
Inductive OrderType : Type := limit | market.
Inductive PriceSource : Type := binance | hyperliquid.
Inductive Direction : Type := up | down.

Module Market.
Record t : Type := mk {
  id : string;
  symbol : string;
  base : string;
  quote : string;
  pricePrecision : Z;
  sizePrecision : Z;
  minSize : Q;
  maxSize : option Q;
  tickSize : Q
}.
End Market.

Module OrderRequest.
Record t : Type := mk {
  symbol : string;
  side : Side;
  type : OrderType;
  price : Q;
  size : Q;
  postOnly : option bool;
  reduceOnly : option bool;
  clientId : option string
}.
End OrderRequest.

(** ** Configuration (bots/mm/config.ts) *)

Module Config.

#[local] Open Scope Q_scope.

(** [MarketMakerConfig].  [exchange] is a string at run time: the validator
    tests it for being empty. *)
Record MarketMakerConfig : Type := mk {
  exchange : string;
  symbol : string;
  priceSource : PriceSource;
  spreadBps : Q;
  takeProfitBps : Q;
  orderSizeUsd : Q;
  closeThresholdUsd : Q;
  maxPositionUsd : Q;
  warmupSeconds : Q;
  updateThrottleMs : Q;
  orderSyncIntervalMs : Q;
  fairPriceWindowMs : Q;
  minMarginRatio : Q
}.

(** [DEFAULT_CONFIG] completed with an exchange and a symbol, as
    [mergeConfig] does when neither the environment nor the caller
    overrides anything. *)
Definition defaultConfig (exchange symbol : string) : MarketMakerConfig :=
  {| exchange := exchange;
     symbol := symbol;
     priceSource := binance;
     spreadBps := 10;
     takeProfitBps := 5;
     orderSizeUsd := 100;
     closeThresholdUsd := 500;
     maxPositionUsd := 2000;
     warmupSeconds := 10;
     updateThrottleMs := 100;
     orderSyncIntervalMs := 3000;
     fairPriceWindowMs := 5 * 60 * 1000;
     minMarginRatio := 1 # 10 |}.

(** The outcome of a [void] function that may throw. *)
Inductive Outcome : Type :=
  | Returned
  | Threw (message : string).

(** [!s] on a string. *)
Definition isEmpty (s : string) : bool := bool_decide (s = EmptyString).

(** [validateConfig]. *)
Definition validateConfig (config : MarketMakerConfig) : Outcome :=
  if isEmpty (exchange config) then Threw "Exchange is required"
  else if isEmpty (symbol config) then Threw "Symbol is required"
  else if Qle_bool (spreadBps config) 0 then Threw "spreadBps must be positive"
  else if Qle_bool (orderSizeUsd config) 0
  then Threw "orderSizeUsd must be positive"
  else if Qle_bool (closeThresholdUsd config) 0
  then Threw "closeThresholdUsd must be positive"
  else if Qle_bool (maxPositionUsd config) (closeThresholdUsd config)
  then Threw "maxPositionUsd must be greater than closeThresholdUsd"
  else Returned.

(** The default configuration with a spread of zero. *)
Definition zeroSpreadConfig : MarketMakerConfig :=
  {| exchange := "hyperliquid";
     symbol := "BTC";
     priceSource := binance;
     spreadBps := 0;
     takeProfitBps := 5;
     orderSizeUsd := 100;
     closeThresholdUsd := 500;
     maxPositionUsd := 2000;
     warmupSeconds := 10;
     updateThrottleMs := 100;
     orderSyncIntervalMs := 3000;
     fairPriceWindowMs := 5 * 60 * 1000;
     minMarginRatio := 1 # 10 |}.

End Config.

(** ** Quote generator (class [Quoter]) *)

Module Quoter.

#[local] Open Scope Q_scope.

Record Quote : Type := mkQuote {
  bidPrice : Q;
  askPrice : Q;
  bidSize : Q;
  askSize : Q;
  fairPrice : Q;
  spreadBps : Q;
  isCloseMode : bool
}.

(** The fields of the class [Quoter]. *)
Record t : Type := mk {
  config : Config.MarketMakerConfig;
  market : option Market.t
}.

Definition new (config : Config.MarketMakerConfig) : t :=
  {| config := config; market := None |}.

Definition setMarket (q : t) (m : Market.t) : t :=
  {| config := config q; market := Some m |}.

(** The tick table of [roundToTick]. *)
Definition tickSize (symbol : string) : Q :=
  if bool_decide (symbol = "BTC") || bool_decide (symbol = "ETH") then 1 # 10
  else if bool_decide (symbol = "HYPE") then 1 # 100
  else 1 # 100000.

(** [roundToTick], in exact arithmetic. *)
Definition roundToTick (q : t) (price : Q) (direction : Direction) : Q :=
  let tickSize := tickSize (Config.symbol (config q)) in
  match direction with
  | down => inject_Z (Qfloor (price / tickSize)) * tickSize
  | up => inject_Z (Qceiling (price / tickSize)) * tickSize
  end.

(** [roundSize]. *)
Definition roundSize (q : t) (size : Q) : Q :=
  match market q with
  | None => size
  | Some m =>
      let precision := Market.sizePrecision m in
      let multiplier := Qpower 10 precision in
      inject_Z (Qfloor (size * multiplier)) / multiplier
  end.

(** [generateQuotes]. *)
Definition generateQuotes (q : t) (fairPrice positionNotional : Q) : Quote :=
  let isCloseMode :=
    Qltb (Config.closeThresholdUsd (config q)) (Qabs positionNotional) in
  let spreadBps :=
    if isCloseMode then Config.takeProfitBps (config q)
    else Config.spreadBps (config q) in
  let spreadMultiplier := spreadBps / 10000 in
  let bidPrice := fairPrice * (1 - spreadMultiplier) in
  let askPrice := fairPrice * (1 + spreadMultiplier) in
  let bidPrice :=
    match market q with
    | Some _ => roundToTick q bidPrice down
    | None => bidPrice
    end in
  let askPrice :=
    match market q with
    | Some _ => roundToTick q askPrice up
    | None => askPrice
    end in
  let baseSize := Config.orderSizeUsd (config q) / fairPrice in
  let bidSize := baseSize in
  let askSize := baseSize in
  let sizes :=
    if isCloseMode then
      if Qltb 0 positionNotional then (0, askSize) else (bidSize, 0)
    else (bidSize, askSize) in
  let bidSize := fst sizes in
  let askSize := snd sizes in
  let bidSize :=
    match market q with
    | Some _ => roundSize q bidSize
    | None => bidSize
    end in
  let askSize :=
    match market q with
    | Some _ => roundSize q askSize
    | None => askSize
    end in
  {| bidPrice := bidPrice;
     askPrice := askPrice;
     bidSize := bidSize;
     askSize := askSize;
     fairPrice := fairPrice;
     spreadBps := spreadBps;
     isCloseMode := isCloseMode |}.

(** [quoteToOrders]; [orders.push] appends. *)
Definition quoteToOrders (q : t) (quote : Quote) : list OrderRequest.t :=
  let shouldReduce := false in
  let shouldPostOnly := true in
  let orders := [] in
  let orders :=
    if Qltb 0 (bidSize quote) then
      orders ++ [ {| OrderRequest.symbol := Config.symbol (config q);
                     OrderRequest.side := buy;
                     OrderRequest.type := limit;
                     OrderRequest.price := roundToTick q (bidPrice quote) down;
                     OrderRequest.size := roundSize q (bidSize quote);
                     OrderRequest.postOnly := Some shouldPostOnly;
                     OrderRequest.reduceOnly := Some shouldReduce;
                     OrderRequest.clientId := None |} ]
    else orders in
  let orders :=
    if Qltb 0 (askSize quote) then
      orders ++ [ {| OrderRequest.symbol := Config.symbol (config q);
                     OrderRequest.side := sell;
                     OrderRequest.type := limit;
                     OrderRequest.price := roundToTick q (askPrice quote) up;
                     OrderRequest.size := roundSize q (askSize quote);
                     OrderRequest.postOnly := Some shouldPostOnly;
                     OrderRequest.reduceOnly := Some shouldReduce;
                     OrderRequest.clientId := None |} ]
    else orders in
  orders.

(** A quote with its mode flag replaced. *)
Definition withCloseMode (b : bool) (quote : Quote) : Quote :=
  {| bidPrice := bidPrice quote;
     askPrice := askPrice quote;
     bidSize := bidSize quote;
     askSize := askSize quote;
     fairPrice := fairPrice quote;
     spreadBps := spreadBps quote;
     isCloseMode := b |}.

(** The prices a quote carries for a given half-spread in basis points. *)
Definition bidAround (q : t) (fairPrice halfSpreadBps : Q) : Q :=
  match market q with
  | Some _ => roundToTick q (fairPrice * (1 - halfSpreadBps / 10000)) down
  | None => fairPrice * (1 - halfSpreadBps / 10000)
  end.

Definition askAround (q : t) (fairPrice halfSpreadBps : Q) : Q :=
  match market q with
  | Some _ => roundToTick q (fairPrice * (1 + halfSpreadBps / 10000)) up
  | None => fairPrice * (1 + halfSpreadBps / 10000)
  end.

(** *** The scenario of the specification *)

(** [spreadBps = 10], [closeThresholdUsd = 500], [orderSizeUsd = 100]. *)
Definition scenarioConfig : Config.MarketMakerConfig :=
  Config.defaultConfig "hyperliquid" "BTC".

(** A market whose sizes have five decimals, and one with two. *)
Definition fineMarket : Market.t :=
  {| Market.id := "0"; Market.symbol := "BTC/USD:USDC";
     Market.base := "BTC"; Market.quote := "USD";
     Market.pricePrecision := 1; Market.sizePrecision := 5;
     Market.minSize := 1 # 100000; Market.maxSize := None;
     Market.tickSize := 1 # 10 |}.

Definition coarseMarket : Market.t :=
  {| Market.id := "0"; Market.symbol := "BTC/USD:USDC";
     Market.base := "BTC"; Market.quote := "USD";
     Market.pricePrecision := 1; Market.sizePrecision := 2;
     Market.minSize := 1 # 100; Market.maxSize := None;
     Market.tickSize := 1 # 10 |}.

End Quoter.

(** ** Fair-price calculator (pricing/fair-price.ts) *)

Module FairPriceConfig.
Record t : Type := mk {
  priceSource : option PriceSource;
  windowMs : option Q;
  alpha : option Q;
  minPrices : option Q;
  warmupMs : option Q;
  isTestnet : option bool
}.
End FairPriceConfig.

Module FairPrice.

#[local] Open Scope Q_scope.

Definition DEFAULT_WINDOW_MS : Q := 5 * 60 * 1000.
Definition DEFAULT_MIN_PRICES : Q := 10.
Definition DEFAULT_WARMUP_MS : Q := 10 * 1000.

(** [x || d] on an optional number: [undefined] and [0] are falsy. *)
Definition orQ (x : option Q) (d : Q) : Q :=
  match x with
  | Some v => if Qeq_bool v 0 then d else v
  | None => d
  end.

(** The fields of [FairPriceCalculator] that the class itself updates.  The
    price feed is an external object; the callbacks registered with
    [onPriceUpdate] are handed each new average and have no access to the
    fields. *)
Record FairPriceCalculator : Type := mk {
  priceSource : PriceSource;
  ema : option Q;
  alpha : Q;
  priceCount : nat;
  minPrices : Q;
  warmupMs : Q;
  startTime : Z;
  lastUpdateTime : option Z
}.

(** The constructor; [now] is the reading of [Date.now()].  The symbol only
    selects the feed. *)
Definition constructor (symbol : string) (config : option FairPriceConfig.t)
    (now : Z) : FairPriceCalculator :=
  let windowMs := orQ (config ≫= FairPriceConfig.windowMs) DEFAULT_WINDOW_MS in
  let estimatedPeriods := windowMs / 1000 in
  {| priceSource :=
       default binance (config ≫= FairPriceConfig.priceSource);
     ema := None;
     alpha :=
       orQ (config ≫= FairPriceConfig.alpha) (2 / (estimatedPeriods + 1));
     priceCount := 0;
     minPrices := orQ (config ≫= FairPriceConfig.minPrices) DEFAULT_MIN_PRICES;
     warmupMs := orQ (config ≫= FairPriceConfig.warmupMs) DEFAULT_WARMUP_MS;
     startTime := now;
     lastUpdateTime := None |}.

(** [updateEMA]. *)
Definition updateEMA (c : FairPriceCalculator) (price : Q) (timestamp : Z)
    : FairPriceCalculator :=
  {| priceSource := priceSource c;
     ema :=
       match ema c with
       | None => Some price
       | Some e => Some (alpha c * price + (1 - alpha c) * e)
       end;
     alpha := alpha c;
     priceCount := S (priceCount c);
     minPrices := minPrices c;
     warmupMs := warmupMs c;
     startTime := startTime c;
     lastUpdateTime := Some timestamp |}.

(** [isWarmedUp] at clock reading [now]. *)
Definition isWarmedUp (c : FairPriceCalculator) (now : Z) : bool :=
  let elapsed := (now - startTime c)%Z in
  Qle_bool (warmupMs c) (inject_Z elapsed)
  && Qle_bool (minPrices c) (inject_Z (Z.of_nat (priceCount c))).

(** [isReady]. *)
Definition isReady (c : FairPriceCalculator) (now : Z) : bool :=
  bool_decide (ema c <> None) && isWarmedUp c now.

(** [getFairPrice]; [None] is JavaScript's [null]. *)
Definition getFairPrice (c : FairPriceCalculator) (now : Z) : option Q :=
  if negb (isReady c now) then None else ema c.

(** The ticks the feed delivers, in order: each is [(price, timestamp)]. *)
Definition deliver (c : FairPriceCalculator) (ticks : list (Q * Z))
    : FairPriceCalculator :=
  foldl (fun st tick => updateEMA st (fst tick) (snd tick)) c ticks.

(** The recurrence of the specification, on the prices alone. *)
Definition blend (a : Q) (e price : Q) : Q := a * price + (1 - a) * e.

Definition emaOf (a : Q) (prices : list Q) : option Q :=
  match prices with
  | [] => None
  | first :: later => Some (foldl (blend a) first later)
  end.

(** [getPriceCount], [getElapsedMs], [getWarmupRemainingMs] and
    [getLastUpdateTime]. *)
Definition getPriceCount (c : FairPriceCalculator) : nat := priceCount c.

Definition getElapsedMs (c : FairPriceCalculator) (now : Z) : Z :=
  (now - startTime c)%Z.

Definition getWarmupRemainingMs (c : FairPriceCalculator) (now : Z) : Q :=
  let remaining := warmupMs c - inject_Z (getElapsedMs c now) in
  if Qltb 0 remaining then remaining else 0.

Definition getLastUpdateTime (c : FairPriceCalculator) : option Z :=
  lastUpdateTime c.

(** *** Configurations used below *)

(** No option set: every default applies. *)
Definition noOptions : FairPriceConfig.t :=
  {| FairPriceConfig.priceSource := None;
     FairPriceConfig.windowMs := None;
     FairPriceConfig.alpha := None;
     FairPriceConfig.minPrices := None;
     FairPriceConfig.warmupMs := None;
     FairPriceConfig.isTestnet := None |}.

(** A window of one second, a threshold of two prices, one second of
    warm-up. *)
Definition shortWindow : FairPriceConfig.t :=
  {| FairPriceConfig.priceSource := None;
     FairPriceConfig.windowMs := Some 1000;
     FairPriceConfig.alpha := None;
     FairPriceConfig.minPrices := Some 2;
     FairPriceConfig.warmupMs := Some 1000;
     FairPriceConfig.isTestnet := None |}.

(** A negative threshold. *)
Definition negativeThreshold : FairPriceConfig.t :=
  {| FairPriceConfig.priceSource := None;
     FairPriceConfig.windowMs := None;
     FairPriceConfig.alpha := None;
     FairPriceConfig.minPrices := Some (-1);
     FairPriceConfig.warmupMs := None;
     FairPriceConfig.isTestnet := None |}.

End FairPrice.

(** ** Binary64 rendering of the tick rounding *)

Module F64.

(** [Math.floor] on a double: the integer part is read off the mantissa and
    the exponent; zeros, infinities and NaN are returned as they are. *)
Definition Math_floor (x : float) : float :=
  match Prim2SF x with
  | S754_finite s m e =>
      if (0 <=? e)%Z then x
      else
        let z := if s then Z.neg m else Z.pos m in
        let q := Z.shiftr z (- e) in
        if (0 <=? q)%Z
        then PrimFloat.of_uint63 (Uint63.of_Z q)
        else PrimFloat.opp (PrimFloat.of_uint63 (Uint63.of_Z (- q)))
  | _ => x
  end.

(** [Math.ceil x = -Math.floor(-x)], signed zeros included. *)
Definition Math_ceil (x : float) : float :=
  PrimFloat.opp (Math_floor (PrimFloat.opp x)).

(** The tick table of [roundToTick]; the literals are the doubles that the
    JavaScript literals [0.1], [0.01] and [0.00001] denote. *)
Definition tickSize (symbol : string) : float :=
  if bool_decide (symbol = "BTC") || bool_decide (symbol = "ETH") then 0.1%float
  else if bool_decide (symbol = "HYPE") then 0.01%float
  else 0.00001%float.

(** [Quoter.roundToTick] in binary64 arithmetic. *)
Definition roundToTick (symbol : string) (price : float) (direction : Direction)
    : float :=
  match direction with
  | down => (Math_floor (price / tickSize symbol) * tickSize symbol)%float
  | up => (Math_ceil (price / tickSize symbol) * tickSize symbol)%float
  end.

End F64.

(** ** Positions (types.ts, class [PositionManager]) *)

Inductive PositionSide : Type := long | short | none.

Module Position.
(** [Position] of types.ts, without the field [raw]. *)
Record t : Type := mk {
  symbol : string;
  side : PositionSide;
  size : Q;
  entryPrice : Q;
  markPrice : option Q;
  liquidationPrice : option Q;
  unrealizedPnl : Q;
  realizedPnl : option Q;
  leverage : option Q;
  margin : option Q
}.
End Position.

Module PositionManager.

#[local] Open Scope Q_scope.

Record PositionState : Type := mkState {
  symbol : string;
  side : PositionSide;
  size : Q;
  entryPrice : Q;
  markPrice : Q;
  notional : Q;
  unrealizedPnl : Q;
  margin : Q
}.

(** The fields of the class. *)
Record t : Type := mk {
  config : Config.MarketMakerConfig;
  position : PositionState
}.

(** The state without a position; [markPrice] is what is known of the
    mark. *)
Definition flat (config : Config.MarketMakerConfig) (markPrice : Q)
    : PositionState :=
  {| symbol := Config.symbol config;
     side := none;
     size := 0;
     entryPrice := 0;
     markPrice := markPrice;
     notional := 0;
     unrealizedPnl := 0;
     margin := 0 |}.

(** The constructor. *)
Definition new (config : Config.MarketMakerConfig) : t :=
  {| config := config; position := flat config 0 |}.

(** [updatePosition]. *)
Definition updatePosition (pm : t) (exchangePosition : option Position.t)
    (markPrice : option Q) : t :=
  match exchangePosition with
  | None =>
      {| config := config pm;
         position := flat (config pm) (FairPrice.orQ markPrice 0) |}
  | Some ep =>
      if Qeq_bool (Position.size ep) 0 then
        {| config := config pm;
           position := flat (config pm) (FairPrice.orQ markPrice 0) |}
      else
        let price :=
          FairPrice.orQ markPrice
            (FairPrice.orQ (Position.markPrice ep) (Position.entryPrice ep)) in
        let size := Qabs (Position.size ep) in
        let notional := size * price in
        {| config := config pm;
           position :=
             {| symbol := Config.symbol (config pm);
                side :=
                  match Position.side ep with
                  | none => none
                  | other => other
                  end;
                size := size;
                entryPrice := Position.entryPrice ep;
                markPrice := price;
                notional := notional;
                unrealizedPnl := Position.unrealizedPnl ep;
                margin := FairPrice.orQ (Position.margin ep) 0 |} |}
  end.

(** [getSignedNotional]. *)
Definition getSignedNotional (pm : t) : Q :=
  match side (position pm) with
  | long => notional (position pm)
  | short => - notional (position pm)
  | none => 0
  end.

(** [isCloseMode]. *)
Definition isCloseMode (pm : t) : bool :=
  Qltb (Config.closeThresholdUsd (config pm)) (notional (position pm)).

(** [isAtMax]. *)
Definition isAtMax (pm : t) : bool :=
  Qle_bool (Config.maxPositionUsd (config pm)) (notional (position pm)).

(** [canAddPosition]. *)
Definition canAddPosition (pm : t) (orderSide : Side) : bool :=
  if isAtMax pm then false
  else if isCloseMode pm then
    match side (position pm), orderSide with
    | long, buy => false
    | short, sell => false
    | _, _ => true
    end
  else true.

(** [getUtilization]. *)
Definition getUtilization (pm : t) : Q :=
  notional (position pm) / Config.maxPositionUsd (config pm).

End PositionManager.

(** ** Aftermath account (exchanges/aftermath, account functions) *)

Module Account.

#[local] Open Scope Q_scope.

Inductive AccountType : Type := capability | account.

(** [AftermathAccount]. *)
Record AftermathAccount : Type := mkAccount {
  id : string;
  type : AccountType;
  accountNumber : Z;
  code : option string;
  collateral : option Q
}.

(** [AccountCache]. *)
Record AccountCache : Type := mkCache {
  accountCapId : string;
  accountId : string;
  cachedAccountNumber : Z;
  walletAddress : string
}.

(** What a call answers: a value, or an error thrown. *)
Inductive Answer (A : Type) : Type :=
  | Value (a : A)
  | Thrown (message : string).
Arguments Value {A} a.
Arguments Thrown {A} message.

(** The part of [getAccountCap] that runs when the cache does not serve
    the call: [accounts] is what the venue answers for the wallet. *)
Definition discoverAccountCap (accountCache : option AccountCache)
    (accounts : list AftermathAccount) (wallet : string)
    : Answer AccountCache * option AccountCache :=
  let firstCapability :=
    List.find (fun a => match type a with
                        | capability => true
                        | account => false
                        end) accounts in
  let firstAccount :=
    List.find (fun a => match type a with
                        | account => true
                        | capability => false
                        end) accounts in
  match firstCapability, firstAccount with
  | None, _ =>
      (Thrown (String.append "No account capability found for wallet "
                 (String.append wallet ". Create an account first.")),
       accountCache)
  | Some _, None =>
      (Thrown (String.append "No account found for wallet "
                 (String.append wallet ". Create an account first.")),
       accountCache)
  | Some cap, Some acc =>
      let fresh :=
        {| accountCapId := id cap;
           accountId := id acc;
           cachedAccountNumber := accountNumber cap;
           walletAddress := wallet |} in
      (Value fresh, Some fresh)
  end.

(** [getAccountCap].  The module-level cache is passed in and out. *)
Definition getAccountCap (accountCache : option AccountCache)
    (accounts : list AftermathAccount) (wallet : string)
    : Answer AccountCache * option AccountCache :=
  match accountCache with
  | Some cached =>
      if bool_decide (walletAddress cached = wallet)
      then (Value cached, accountCache)
      else discoverAccountCap accountCache accounts wallet
  | None => discoverAccountCap accountCache accounts wallet
  end.

(** [clearAccountCache]. *)
Definition clearAccountCache (accountCache : option AccountCache)
    : option AccountCache := None.

(** The two values the venue may give for [side]. *)
Inductive HeldSide : Type := heldLong | heldShort.

Definition toSide (h : HeldSide) : PositionSide :=
  match h with
  | heldLong => long
  | heldShort => short
  end.

(** The fields of [AftermathPosition] that [getPositions] reads; the
    response carries more, which are only kept under [raw]. *)
Record AftermathPosition : Type := mkPosition {
  p_symbol : string;
  p_side : option HeldSide;
  p_contracts : option Q;
  p_entryPrice : option Q;
  p_markPrice : option Q;
  p_leverage : option Q;
  p_collateral : option Q;
  p_initialMargin : option Q;
  p_unrealizedPnl : option Q;
  p_realizedPnl : option Q;
  p_liquidationPrice : option Q
}.


(** [p.collateral || p.initialMargin]. *)
Definition marginOf (p : AftermathPosition) : option Q :=
  match p_collateral p with
  | Some c => if Qeq_bool c 0 then p_initialMargin p else Some c
  | None => p_initialMargin p
  end.

(** [p.side || (p.contracts && p.contracts > 0 ? "long" : "short")]. *)
Definition sideOf (p : AftermathPosition) : PositionSide :=
  match p_side p with
  | Some s => toSide s
  | None =>
      match p_contracts p with
      | Some c => if negb (Qeq_bool c 0) && Qltb 0 c then long else short
      | None => short
      end
  end.

(** The mapping of [getPositions]. *)
Definition toPosition (p : AftermathPosition) : Position.t :=
  {| Position.symbol := p_symbol p;
     Position.side := sideOf p;
     Position.size := FairPrice.orQ (p_contracts p) 0;
     Position.entryPrice := FairPrice.orQ (p_entryPrice p) 0;
     Position.markPrice := p_markPrice p;
     Position.liquidationPrice := p_liquidationPrice p;
     Position.unrealizedPnl := FairPrice.orQ (p_unrealizedPnl p) 0;
     Position.realizedPnl := p_realizedPnl p;
     Position.leverage := p_leverage p;
     Position.margin := marginOf p |}.


(** *** Sample answers of the venue *)

Definition shortAnswer : AftermathPosition :=
  {| p_symbol := "BTC/USDC:USDC"; p_side := None; p_contracts := Some (-2);
     p_entryPrice := Some 50000; p_markPrice := Some 51000;
     p_leverage := None; p_collateral := None; p_initialMargin := Some 1000;
     p_unrealizedPnl := None; p_realizedPnl := None;
     p_liquidationPrice := None |}.

Definition emptyAnswer : AftermathPosition :=
  {| p_symbol := "ETH/USDC:USDC"; p_side := Some heldLong;
     p_contracts := Some 0;
     p_entryPrice := None; p_markPrice := None;
     p_leverage := None; p_collateral := None; p_initialMargin := None;
     p_unrealizedPnl := None; p_realizedPnl := None;
     p_liquidationPrice := None |}.

Definition walletAccounts : list AftermathAccount :=
  [ {| id := "0xacc"; type := account; accountNumber := 7;
       code := None; collateral := None |};
    {| id := "0xcap"; type := capability; accountNumber := 7;
       code := None; collateral := None |} ].

End Account.

Import Reconciler.

(** * Properties *)

(** ** Comparisons *)

Lemma Qltb_true x y : Qltb x y = true <-> (x < y)%Q.
Proof.
  unfold Qltb. rewrite negb_true_iff. split.
  - intros H. apply Qnot_le_lt. intros Hle.
    apply Qle_bool_iff in Hle. congruence.
  - intros H. destruct (Qle_bool y x) eqn:E; [|reflexivity].
    apply Qle_bool_iff in E. exfalso. apply (Qlt_not_le _ _ H E).
Qed.

Lemma Qltb_false x y : Qltb x y = false <-> (y <= x)%Q.
Proof.
  unfold Qltb. rewrite negb_false_iff. apply Qle_bool_iff.
Qed.

Lemma Qle_bool_false x y : Qle_bool x y = false <-> (y < x)%Q.
Proof.
  rewrite <- Qltb_true. unfold Qltb. rewrite negb_true_iff. reflexivity.
Qed.

Lemma Qeq_bool_false x y : Qeq_bool x y = false <-> ~ (x == y)%Q.
Proof.
  split.
  - apply Qeq_bool_neq.
  - intros H. destruct (Qeq_bool x y) eqn:E; [|reflexivity].
    apply Qeq_bool_eq in E. contradiction.
Qed.

(** ** [findIndex] *)

Section FindIndex.
Context {A : Type} (f : A -> bool).

Lemma findIndex_Some_split (l : list A) (i : nat) :
  findIndex f l = Some i ->
  exists pre x post,
    l = pre ++ x :: post /\ length pre = i
    /\ Forall (fun y => f y = false) pre /\ f x = true.
Proof.
  revert i. induction l as [|y l IH]; intros i H; simpl in H.
  - discriminate.
  - destruct (f y) eqn:Hy.
    + inversion H; subst. exists [], y, l. auto.
    + destruct (findIndex f l) as [j|] eqn:Hj; simpl in H; [|discriminate].
      inversion H; subst.
      destruct (IH j eq_refl) as (pre & x & post & -> & Hlen & Hpre & Hx).
      exists (y :: pre), x, post. simpl. repeat split; auto.
Qed.

Lemma findIndex_None (l : list A) :
  findIndex f l = None -> Forall (fun y => f y = false) l.
Proof.
  induction l as [|y l IH]; simpl; intros H.
  - constructor.
  - destruct (f y) eqn:Hy; [discriminate|].
    destruct (findIndex f l); simpl in H; [discriminate|].
    constructor; auto.
Qed.

Lemma findIndex_first (pre : list A) (x : A) (post : list A) :
  Forall (fun y => f y = false) pre -> f x = true ->
  findIndex f (pre ++ x :: post) = Some (length pre).
Proof.
  induction 1 as [|y pre Hy _ IH]; intros Hx; simpl.
  - rewrite Hx. reflexivity.
  - rewrite Hy, IH by assumption. reflexivity.
Qed.

Lemma findIndex_none_of (l : list A) :
  Forall (fun y => f y = false) l -> findIndex f l = None.
Proof.
  induction 1 as [|y l Hy _ IH]; simpl.
  - reflexivity.
  - rewrite Hy, IH. reflexivity.
Qed.
End FindIndex.

(** ** One price-level change *)

Lemma atPrice_true price lv : atPrice price lv = true <-> (fst lv == price)%Q.
Proof. unfold atPrice. apply Qeq_bool_iff. Qed.

Lemma atPrice_false price lv :
  atPrice price lv = false <-> ~ (fst lv == price)%Q.
Proof. unfold atPrice. apply Qeq_bool_false. Qed.

Lemma Forall_atPrice_false price (l : list PriceLevel) :
  Forall (fun lv => atPrice price lv = false) l <->
  Forall (fun lv => ~ (fst lv == price)%Q) l.
Proof.
  split; intros H; eapply Forall_impl; try exact H;
    intros lv; apply atPrice_false.
Qed.

(** The level found first at the price is updated or spliced out. *)
Lemma applyPriceLevelDelta_existing pre p a post price d isBid :
  Forall (fun lv => atPrice price lv = false) pre ->
  atPrice price (p, a) = true ->
  applyPriceLevelDelta (pre ++ (p, a) :: post) price d isBid =
  if Qle_bool (a + d) 0 then pre ++ post else pre ++ (p, (a + d)%Q) :: post.
Proof.
  intros Hpre Hx. unfold applyPriceLevelDelta.
  rewrite (findIndex_first (atPrice price) pre (p, a) post Hpre Hx).
  rewrite list_lookup_middle by reflexivity.
  destruct (Qle_bool (a + d) 0).
  - apply delete_middle.
  - rewrite insert_app_r_alt by lia.
    rewrite Nat.sub_diag. reflexivity.
Qed.

(** With no level at the price, a positive amount is spliced in front of
    the first level that lies beyond the price, or pushed at the end. *)
Lemma applyPriceLevelDelta_absent levels price d isBid :
  Forall (fun lv => atPrice price lv = false) levels ->
  applyPriceLevelDelta levels price d isBid =
  if Qltb 0 d then
    match findIndex (beyond isBid price) levels with
    | Some j => take j levels ++ (price, d) :: drop j levels
    | None => levels ++ [(price, d)]
    end
  else levels.
Proof.
  intros H. unfold applyPriceLevelDelta.
  rewrite (findIndex_none_of (atPrice price) _ H). reflexivity.
Qed.

(** The code meets the rule of the specification, whatever the side holds. *)
Lemma applyPriceLevelDelta_reconciled isBid levels price d :
  reconciled isBid price d levels (applyPriceLevelDelta levels price d isBid).
Proof.
  destruct (findIndex (atPrice price) levels) as [i|] eqn:Hfind.
  - destruct (findIndex_Some_split _ _ _ Hfind)
      as (pre & [p a] & post & -> & _ & Hpre & Hx).
    rewrite (applyPriceLevelDelta_existing _ _ _ _ _ _ _ Hpre Hx).
    apply Forall_atPrice_false in Hpre. apply atPrice_true in Hx. simpl in Hx.
    destruct (Qle_bool (a + d) 0) eqn:Hle.
    + apply rec_remove; auto. apply Qle_bool_iff. exact Hle.
    + apply rec_update; auto. apply Qle_bool_false. exact Hle.
  - pose proof (findIndex_None _ _ Hfind) as Hnone.
    rewrite (applyPriceLevelDelta_absent _ _ _ _ Hnone).
    apply Forall_atPrice_false in Hnone.
    destruct (Qltb 0 d) eqn:Hd.
    + apply Qltb_true in Hd.
      destruct (findIndex (beyond isBid price) levels) as [j|] eqn:Hj.
      * destruct (findIndex_Some_split _ _ _ Hj)
          as (pre & x & post & -> & Hlen & Hpre & Hx).
        subst j. rewrite take_app_length, drop_app_length.
        apply (rec_insert isBid price d pre (x :: post)); auto.
        intros lv Hlv. simpl in Hlv. inversion Hlv; subst. exact Hx.
      * pose proof (findIndex_None _ _ Hj) as Hall.
        rewrite <- (app_nil_r levels) at 1.
        apply (rec_insert isBid price d levels []); auto.
        -- rewrite app_nil_r. exact Hnone.
        -- intros lv Hlv. discriminate.
    + apply Qltb_false in Hd. apply rec_ignore; auto.
Qed.

(** ** The stale-delta guard *)

Lemma applyDelta_out_of_order chId delta s book :
  localOrderbooks s !! chId = Some book ->
  isOutOfOrder book delta = true ->
  applyDelta chId delta s = s.
Proof.
  intros Hb Ho. unfold applyDelta. rewrite Hb, Ho. reflexivity.
Qed.

(** The book held after a delta. *)
Lemma applyDelta_lookup chId delta s book :
  localOrderbooks s !! chId = Some book ->
  localOrderbooks (applyDelta chId delta s) !! chId
  = Some (if isOutOfOrder book delta then book else mutateBook book delta).
Proof.
  intros Hb. unfold applyDelta. rewrite Hb.
  destruct (isOutOfOrder book delta); [exact Hb|].
  cbn. apply lookup_insert_eq.
Qed.

(** C1. A delta whose nonce is at most the nonce held by the local book
    leaves the whole subscription state as it was: bids, asks, timestamp and
    nonce of the view are unchanged and no callback runs.  Applying such a
    delta twice is therefore the same as applying it once. *)
Theorem applyDelta_stale_noop :
  forall (s : Subscription) (chId : string) (book : Orderbook)
         (delta : AftermathOrderbookDelta) (lastNonce : Z),
    localOrderbooks s !! chId = Some book ->
    nonce book = Some lastNonce ->
    (d_nonce delta <= lastNonce)%Z ->
    applyDelta chId delta s = s
    /\ localOrderbooks (applyDelta chId delta s) !! chId = Some book
    /\ applyDelta chId delta (applyDelta chId delta s) = applyDelta chId delta s.
Proof.
  intros s chId book delta n Hb Hn Hle.
  assert (Ho : isOutOfOrder book delta = true).
  { unfold isOutOfOrder. rewrite Hn. apply Z.leb_le. exact Hle. }
  pose proof (applyDelta_out_of_order chId delta s book Hb Ho) as E.
  rewrite !E. auto.
Qed.

Lemma applyDelta_stale_noop_witness :
  applyDelta "BTC" scenarioDelta
    (run [Subscribed "BTC" scenarioSnapshot; DeltaReceived "BTC" scenarioDelta])
  = run [Subscribed "BTC" scenarioSnapshot; DeltaReceived "BTC" scenarioDelta].
Proof.
  apply (applyDelta_stale_noop
           (run [Subscribed "BTC" scenarioSnapshot;
                 DeltaReceived "BTC" scenarioDelta])
           "BTC" (mutateBook scenarioSnapshot scenarioDelta) scenarioDelta 1%Z).
  - vm_compute. reflexivity.
  - reflexivity.
  - simpl. lia.
Defined.

(** ** Sortedness of a side *)

Lemma before_trans isBid (a b c : PriceLevel) :
  before isBid a b -> before isBid b c -> before isBid a c.
Proof.
  unfold before. destruct isBid; intros H1 H2; lra.
Qed.

Lemma before_neq isBid (a b : PriceLevel) :
  before isBid a b -> ~ (fst a == fst b)%Q.
Proof.
  unfold before. destruct isBid; intros H1 H2; lra.
Qed.

(** A level that is neither at the price nor beyond it stands in front of
    the price; a level beyond the price stands behind it. *)
Lemma not_beyond_before isBid price d (lv : PriceLevel) :
  beyond isBid price lv = false -> ~ (fst lv == price)%Q ->
  before isBid lv (price, d).
Proof.
  unfold beyond, before. simpl.
  destruct isBid; rewrite Qltb_false; intros H1 H2; lra.
Qed.

Lemma beyond_before isBid price d (lv : PriceLevel) :
  beyond isBid price lv = true -> before isBid (price, d) lv.
Proof.
  unfold beyond, before. simpl.
  destruct isBid; rewrite Qltb_true; auto.
Qed.

Lemma sortedSide_middle isBid (pre : list PriceLevel) x post :
  sortedSide isBid (pre ++ x :: post) <->
  sortedSide isBid pre /\ sortedSide isBid post
  /\ Forall (fun y => before isBid y x) pre
  /\ Forall (before isBid x) post
  /\ (forall y z, y ∈ pre -> z ∈ post -> before isBid y z).
Proof.
  unfold sortedSide.
  rewrite StronglySorted_app, StronglySorted_cons, !Forall_forall.
  split.
  - intros (H1 & H2 & H3 & H4). repeat split; auto.
    + intros y Hy. apply H1; [exact Hy | apply elem_of_cons; auto].
    + intros y z Hy Hz. apply H1; [exact Hy | apply elem_of_cons; auto].
  - intros (H1 & H2 & H3 & H4 & H5). repeat split; auto.
    intros y z Hy Hz. apply elem_of_cons in Hz as [-> | Hz]; auto.
Qed.

Lemma sortedSide_app isBid (pre post : list PriceLevel) :
  sortedSide isBid (pre ++ post) <->
  sortedSide isBid pre /\ sortedSide isBid post
  /\ (forall y z, y ∈ pre -> z ∈ post -> before isBid y z).
Proof.
  unfold sortedSide. rewrite StronglySorted_app. tauto.
Qed.

(** The rule keeps a sorted side sorted. *)
Lemma reconciled_sorted isBid price d levels levels' :
  reconciled isBid price d levels levels' ->
  sortedSide isBid levels -> sortedSide isBid levels'.
Proof.
  intros Hrec. destruct Hrec as
    [pre p a post Hpre Hp Hpos | pre p a post Hpre Hp Hneg
    | pre post Hnone Hd Hpre Hpost | levels Hnone Hd]; intros Hs.
  - apply sortedSide_middle in Hs as (H1 & H2 & H3 & H4 & H5).
    apply sortedSide_middle. repeat split; auto.
  - apply sortedSide_middle in Hs as (H1 & H2 & H3 & H4 & H5).
    apply sortedSide_app. auto.
  - apply sortedSide_app in Hs as (H1 & H2 & H3).
    apply Forall_app in Hnone as [Hn1 Hn2].
    apply sortedSide_middle. repeat split; auto.
    + rewrite Forall_forall in Hpre, Hn1 |- *. intros y Hy.
      apply not_beyond_before; auto.
    + destruct post as [|x post'].
      * constructor.
      * pose proof (beyond_before isBid price d x (Hpost x eq_refl)) as Hx.
        constructor; [exact Hx|].
        unfold sortedSide in H2. apply StronglySorted_cons in H2 as [H2 _].
        eapply Forall_impl; [exact H2|]. intros y Hy.
        eapply before_trans; eauto.
  - exact Hs.
Qed.

Lemma applyPriceLevelDelta_sorted isBid levels price d :
  sortedSide isBid levels ->
  sortedSide isBid (applyPriceLevelDelta levels price d isBid).
Proof.
  apply reconciled_sorted with (price := price) (d := d).
  apply applyPriceLevelDelta_reconciled.
Qed.

Lemma applySide_sorted isBid deltas levels :
  sortedSide isBid levels -> sortedSide isBid (applySide isBid levels deltas).
Proof.
  unfold applySide. revert levels.
  induction deltas as [|[p d] deltas IH]; intros levels Hs; simpl.
  - exact Hs.
  - apply IH. apply applyPriceLevelDelta_sorted. exact Hs.
Qed.

(** Strict sortedness excludes a repeated price. *)
Lemma sortedSide_uniquePrices isBid levels :
  sortedSide isBid levels -> uniquePrices levels.
Proof.
  unfold sortedSide, uniquePrices.
  induction 1 as [|x l Hl IH Hx]; intros i j a b Hi Hj Hab.
  - rewrite lookup_nil in Hi. discriminate.
  - rewrite Forall_forall in Hx.
    destruct i as [|i], j as [|j]; simpl in Hi, Hj.
    + reflexivity.
    + inversion Hi; subst. exfalso.
      apply (before_neq isBid a b); [|exact Hab].
      apply Hx. eapply list_elem_of_lookup_2; eauto.
    + inversion Hj; subst. exfalso.
      apply (before_neq isBid b a); [|symmetry; exact Hab].
      apply Hx. eapply list_elem_of_lookup_2; eauto.
    + f_equal. eapply IH; eauto.
Qed.

Lemma sortedSideb_correct isBid levels :
  sortedSideb isBid levels = true <-> sortedSide isBid levels.
Proof.
  unfold sortedSide. split.
  - intros H. apply Sorted_StronglySorted.
    { intros a b c. apply before_trans. }
    induction levels as [|a [|b rest] IH]; simpl in H.
    + constructor.
    + repeat constructor.
    + apply andb_true_iff in H as [Hab Hrest].
      constructor; [apply IH; exact Hrest|].
      constructor. unfold before.
      destruct isBid; apply Qltb_true; exact Hab.
  - intros H. apply StronglySorted_Sorted in H.
    induction levels as [|a [|b rest] IH]; simpl; auto.
    inversion H as [|? ? Hrest Hhd]; subst.
    apply andb_true_iff. split; [|apply IH; exact Hrest].
    inversion Hhd; subst. unfold before in *.
    destruct isBid; apply Qltb_true; assumption.
Qed.

(** ** The size resting at a price *)

Lemma sizeAt_app q (pre l : list PriceLevel) :
  sizeAt q (pre ++ l) =
  match sizeAt q pre with Some a => Some a | None => sizeAt q l end.
Proof.
  induction pre as [|x pre IH]; simpl.
  - reflexivity.
  - destruct (atPrice q x); [reflexivity | exact IH].
Qed.

Lemma sizeAt_none q (l : list PriceLevel) :
  Forall (fun lv => ~ (fst lv == q)%Q) l -> sizeAt q l = None.
Proof.
  induction 1 as [|x l Hx _ IH]; simpl.
  - reflexivity.
  - apply atPrice_false in Hx. rewrite Hx. exact IH.
Qed.

Lemma sizeAt_Qeq q q' (l : list PriceLevel) :
  (q == q')%Q -> sizeAt q l = sizeAt q' l.
Proof.
  intros Hq. induction l as [|x l IH]; simpl.
  - reflexivity.
  - unfold atPrice. rewrite Hq, IH. reflexivity.
Qed.

Lemma sizeAt_skip q (x : PriceLevel) l :
  ~ (fst x == q)%Q -> sizeAt q (x :: l) = sizeAt q l.
Proof.
  intros H. simpl. apply atPrice_false in H. rewrite H. reflexivity.
Qed.

Lemma sizeAt_here q (x : PriceLevel) l :
  (fst x == q)%Q -> sizeAt q (x :: l) = Some (snd x).
Proof.
  intros H. simpl. apply atPrice_true in H. rewrite H. reflexivity.
Qed.

(** On a sorted side the rule changes the size at the price as
    [sizeAfter] says and leaves every other price alone. *)
Lemma reconciled_sizeAt isBid price d levels levels' :
  reconciled isBid price d levels levels' ->
  sortedSide isBid levels ->
  forall q,
    sizeAt q levels' =
    if Qeq_bool q price then sizeAfter (sizeAt price levels) d
    else sizeAt q levels.
Proof.
  intros Hrec Hs q.
  destruct Hrec as
    [pre p a post Hpre Hp Hpos | pre p a post Hpre Hp Hneg
    | pre post Hnone Hd Hpre Hpost | levels Hnone Hd].
  - rewrite (sizeAt_app price), (sizeAt_none _ _ Hpre).
    rewrite (sizeAt_here price (p, a)) by exact Hp. simpl.
    apply Qle_bool_false in Hpos. rewrite Hpos.
    destruct (Qeq_bool q price) eqn:Hq.
    + apply Qeq_bool_eq in Hq. rewrite (sizeAt_Qeq q price) by exact Hq.
      rewrite sizeAt_app, (sizeAt_none _ _ Hpre).
      apply (sizeAt_here price (p, (a + d)%Q)). exact Hp.
    + apply Qeq_bool_false in Hq. rewrite !sizeAt_app.
      destruct (sizeAt q pre); [reflexivity|].
      rewrite !sizeAt_skip; [reflexivity | |]; simpl; intros E; lra.
  - rewrite (sizeAt_app price), (sizeAt_none _ _ Hpre).
    rewrite (sizeAt_here price (p, a)) by exact Hp. simpl.
    apply Qle_bool_iff in Hneg. rewrite Hneg.
    apply sortedSide_middle in Hs as (_ & _ & _ & Hafter & _).
    destruct (Qeq_bool q price) eqn:Hq.
    + apply Qeq_bool_eq in Hq. rewrite (sizeAt_Qeq q price) by exact Hq.
      rewrite sizeAt_app, (sizeAt_none _ _ Hpre).
      apply sizeAt_none. eapply Forall_impl; [exact Hafter|].
      intros y Hy E. apply before_neq in Hy. simpl in Hy. apply Hy.
      rewrite Hp, E. reflexivity.
    + apply Qeq_bool_false in Hq. rewrite !sizeAt_app.
      destruct (sizeAt q pre); [reflexivity|].
      rewrite sizeAt_skip; [reflexivity|]. simpl. intros E. lra.
  - rewrite (sizeAt_none price _ Hnone). simpl.
    apply Qltb_true in Hd. rewrite Hd.
    apply Forall_app in Hnone as [Hn1 Hn2].
    destruct (Qeq_bool q price) eqn:Hq.
    + apply Qeq_bool_eq in Hq. rewrite (sizeAt_Qeq q price) by exact Hq.
      rewrite sizeAt_app, (sizeAt_none _ _ Hn1).
      apply (sizeAt_here price (price, d)). reflexivity.
    + apply Qeq_bool_false in Hq. rewrite !sizeAt_app.
      destruct (sizeAt q pre); [reflexivity|].
      rewrite sizeAt_skip; [reflexivity|]. simpl. intros E. lra.
  - rewrite (sizeAt_none price _ Hnone). simpl.
    apply Qltb_false in Hd. rewrite Hd.
    destruct (Qeq_bool q price) eqn:Hq; [|reflexivity].
    apply Qeq_bool_eq in Hq. rewrite (sizeAt_Qeq q price) by exact Hq.
    apply sizeAt_none. exact Hnone.
Qed.

(** The loop over one side of a delta takes the rule through its pairs. *)
Lemma applySide_reconciledAll isBid deltas : forall levels,
  reconciledAll isBid deltas levels (applySide isBid levels deltas).
Proof.
  unfold applySide.
  induction deltas as [|[price d] deltas IH]; intros levels; simpl.
  - constructor.
  - econstructor; [apply applyPriceLevelDelta_reconciled | apply IH].
Qed.

(** Pairs taken through the rule keep a sorted side sorted, and change the
    size at each price by the changes listed for that price. *)
Lemma reconciledAll_sorted isBid deltas levels levels' :
  reconciledAll isBid deltas levels levels' ->
  sortedSide isBid levels ->
  sortedSide isBid levels'.
Proof.
  induction 1 as [levels | price d rest levels mid levels' Hrec _ IH];
    intros Hs; [exact Hs|].
  apply IH. eapply reconciled_sorted; eauto.
Qed.

Lemma reconciledAll_sizeAt isBid deltas levels levels' :
  reconciledAll isBid deltas levels levels' ->
  sortedSide isBid levels ->
  forall q, sizeAt q levels' = netSize q (sizeAt q levels) deltas.
Proof.
  unfold netSize.
  induction 1 as [levels | price d rest levels mid levels' Hrec _ IH];
    intros Hs q; simpl; [reflexivity|].
  rewrite IH by (eapply reconciled_sorted; eauto).
  f_equal. rewrite (reconciled_sizeAt isBid price d levels mid Hrec Hs q).
  destruct (Qeq_bool q price) eqn:Hq; [|reflexivity].
  apply Qeq_bool_eq in Hq. rewrite (sizeAt_Qeq q price) by exact Hq.
  reflexivity.
Qed.

(** C2. [applyDelta] of an accepted delta (the book holds no nonce, or a
    nonce smaller than the delta's) replaces the book of the market by one
    whose bids come from the old bids by taking every [(price, sizeDelta)]
    pair of the delta's bids, in order, through the rule [reconciled] for
    bids, and whose asks come from the old asks by the delta's asks through
    the rule for asks.  The rule, for one pair: the first level at exactly
    that price has [sizeDelta] added to its size and keeps its place; it is
    spliced out when the sum is not positive; with no level at the price a
    positive [sizeDelta] is inserted behind every level that is not beyond
    the price and in front of the first one that is; with no level and a
    non-positive [sizeDelta] the side stays as it is.  A strictly sorted
    side is strictly sorted again afterwards (descending bids, ascending
    asks), and the size at any price is the old size taken by [sizeAfter]
    through the changes the delta lists for that price, so that a removed
    price holds no level and an untouched price keeps its size. *)
Theorem applyDelta_rule :
  forall (s : Subscription) (chId : string) (book : Orderbook)
         (delta : AftermathOrderbookDelta),
    localOrderbooks s !! chId = Some book ->
    accepted book delta ->
    exists book' : Orderbook,
      localOrderbooks (applyDelta chId delta s) !! chId = Some book'
      /\ reconciledAll true (d_bids delta) (bids book) (bids book')
      /\ reconciledAll false (d_asks delta) (asks book) (asks book')
      /\ (sortedSide true (bids book) ->
          sortedSide true (bids book')
          /\ forall q : Q,
               sizeAt q (bids book')
               = netSize q (sizeAt q (bids book)) (d_bids delta))
      /\ (sortedSide false (asks book) ->
          sortedSide false (asks book')
          /\ forall q : Q,
               sizeAt q (asks book')
               = netSize q (sizeAt q (asks book)) (d_asks delta)).
Proof.
  intros s chId book delta Hb Hacc.
  assert (Ho : isOutOfOrder book delta = false).
  { unfold accepted in Hacc. unfold isOutOfOrder.
    destruct (nonce book) as [n|]; [|reflexivity].
    apply Z.leb_gt. exact Hacc. }
  pose proof (applyDelta_lookup chId delta s book Hb) as Hl.
  rewrite Ho in Hl.
  exists (mutateBook book delta). split; [exact Hl|]. simpl.
  pose proof (applySide_reconciledAll true (d_bids delta) (bids book)) as Hbids.
  pose proof (applySide_reconciledAll false (d_asks delta) (asks book)) as Hasks.
  split; [exact Hbids|]. split; [exact Hasks|]. split; intros Hs; split.
  - eapply reconciledAll_sorted; eauto.
  - eapply reconciledAll_sizeAt; eauto.
  - eapply reconciledAll_sorted; eauto.
  - eapply reconciledAll_sizeAt; eauto.
Qed.

(** The scenario of the specification, snapshot bids [[100, 5]] and asks
    [[101, 5]] without a nonce and the delta with bids [[100, -5]] and nonce
    1: no level is left at price 100.  And the same book holding nonce 0,
    with a delta of nonce 1 for both sides: the bid changes [[100, -5]],
    [[99, 2]] leave the single level [[99, 2]], the ask changes [[101, -1]],
    [[102, 3]] leave [[101, 4]] in front of [[102, 3]]. *)
Lemma applyDelta_rule_witness :
  (exists book' : Orderbook,
     localOrderbooks
       (applyDelta "BTC" scenarioDelta
          (run [Subscribed "BTC" scenarioSnapshot]))
       !! "BTC" = Some book'
     /\ bids book' = []
     /\ asks book' = [(101, 5)%Q]
     /\ sizeAt 100 (bids book') = None)
  /\ (exists book' : Orderbook,
        localOrderbooks
          (applyDelta "BTC" twoSidedDelta
             (run [Subscribed "BTC" heldSnapshot]))
          !! "BTC" = Some book'
        /\ bids book' = [(99, 2)%Q]
        /\ asks book' = [(101, 4)%Q; (102, 3)%Q]
        /\ sizeAt 100 (bids book') = None
        /\ sizeAt 101 (asks book') = Some 4%Q).
Proof.
  split.
  - assert (Hb : localOrderbooks (run [Subscribed "BTC" scenarioSnapshot])
                   !! "BTC" = Some scenarioSnapshot)
      by (vm_compute; reflexivity).
    assert (Hacc : accepted scenarioSnapshot scenarioDelta)
      by (vm_compute; reflexivity).
    destruct (applyDelta_rule (run [Subscribed "BTC" scenarioSnapshot]) "BTC"
                scenarioSnapshot scenarioDelta Hb Hacc)
      as (book' & Hl & _ & _ & Hbids & _).
    assert (Hsb : sortedSide true (bids scenarioSnapshot))
      by (apply sortedSideb_correct; reflexivity).
    destruct (Hbids Hsb) as [_ Hb100].
    exists book'. split; [exact Hl|].
    assert (E : Some book' = Some (mutateBook scenarioSnapshot scenarioDelta)).
    { rewrite <- Hl. vm_compute. reflexivity. }
    injection E as E.
    split; [rewrite E; vm_compute; reflexivity|].
    split; [rewrite E; vm_compute; reflexivity|].
    rewrite (Hb100 100%Q). vm_compute. reflexivity.
  - assert (Hb : localOrderbooks (run [Subscribed "BTC" heldSnapshot])
                   !! "BTC" = Some heldSnapshot)
      by (vm_compute; reflexivity).
    assert (Hacc : accepted heldSnapshot twoSidedDelta)
      by (vm_compute; reflexivity).
    destruct (applyDelta_rule (run [Subscribed "BTC" heldSnapshot]) "BTC"
                heldSnapshot twoSidedDelta Hb Hacc)
      as (book' & Hl & _ & _ & Hbids & Hasks).
    assert (Hsb : sortedSide true (bids heldSnapshot))
      by (apply sortedSideb_correct; reflexivity).
    assert (Hsa : sortedSide false (asks heldSnapshot))
      by (apply sortedSideb_correct; reflexivity).
    destruct (Hbids Hsb) as [_ Hb100]. destruct (Hasks Hsa) as [_ Ha101].
    exists book'. split; [exact Hl|].
    assert (E : Some book' = Some (mutateBook heldSnapshot twoSidedDelta)).
    { rewrite <- Hl. vm_compute. reflexivity. }
    injection E as E.
    split; [rewrite E; vm_compute; reflexivity|].
    split; [rewrite E; vm_compute; reflexivity|].
    split.
    + rewrite (Hb100 100%Q). vm_compute. reflexivity.
    + rewrite (Ha101 101%Q). vm_compute. reflexivity.
Defined.

(** ** The invariant along a stream *)

Lemma wellFormed_of_sorted book :
  sortedSide true (bids book) -> sortedSide false (asks book) ->
  wellFormed book.
Proof.
  intros Hb Ha. unfold wellFormed.
  repeat split; eauto using sortedSide_uniquePrices.
Qed.

Lemma mutateBook_wellFormed book delta :
  wellFormed book -> wellFormed (mutateBook book delta).
Proof.
  intros (Hb & Ha & _). apply wellFormed_of_sorted; simpl;
    apply applySide_sorted; assumption.
Qed.

Lemma applyDelta_allWellFormed chId delta s :
  allWellFormed s -> allWellFormed (applyDelta chId delta s).
Proof.
  intros Hall. unfold applyDelta.
  destruct (localOrderbooks s !! chId) as [book|] eqn:Hb; [|exact Hall].
  destruct (isOutOfOrder book delta); [exact Hall|].
  intros c b. cbn. rewrite lookup_insert. case_decide as Hc.
  - intros [= <-]. apply mutateBook_wellFormed. eapply Hall; eauto.
  - apply Hall.
Qed.

Lemma subscribeOrderbook_allWellFormed chId snapshot s :
  sortedBook snapshot -> allWellFormed s ->
  allWellFormed (subscribeOrderbook chId snapshot s).
Proof.
  intros [Hbids Hasks] Hall.
  pose proof (wellFormed_of_sorted snapshot Hbids Hasks) as Hsnap.
  unfold subscribeOrderbook.
  case_bool_decide; [exact Hall|].
  intros c b. cbn. rewrite lookup_insert. case_decide as Hc.
  - intros [= <-]. exact Hsnap.
  - apply Hall.
Qed.

Lemma unsubscribeOrderbook_allWellFormed chId s :
  allWellFormed s -> allWellFormed (unsubscribeOrderbook chId s).
Proof.
  intros Hall c b. cbn. rewrite lookup_delete. case_decide; [discriminate|].
  apply Hall.
Qed.

Lemma step_allWellFormed s e :
  admissible e -> allWellFormed s -> allWellFormed (step s e).
Proof.
  destruct e as [chId snapshot | chId delta | chId | chId | chId |]; simpl.
  - apply subscribeOrderbook_allWellFormed.
  - intros _. apply applyDelta_allWellFormed.
  - intros _ Hall. exact Hall.
  - intros _ Hall. exact Hall.
  - intros _. apply unsubscribeOrderbook_allWellFormed.
  - intros _ _ c b. cbn. rewrite lookup_empty. discriminate.
Qed.

Lemma foldl_step_allWellFormed events s :
  Forall admissible events -> allWellFormed s ->
  allWellFormed (foldl step s events).
Proof.
  intros Hev. revert s.
  induction Hev as [|e events He _ IH]; intros s Hs; simpl.
  - exact Hs.
  - apply IH. apply step_allWellFormed; assumption.
Qed.

(** C3, as amended.  The snapshot is installed as the venue sent it, so the
    invariant is one of the stream: when every snapshot that is loaded has
    its bids strictly descending and its asks strictly ascending, every book
    held after any sequence of subscriptions, deltas, stream failures,
    reconnections and unsubscriptions has strictly descending bids, strictly
    ascending asks, and no price twice on a side. *)
Theorem run_wellFormed :
  forall (events : list Event),
    Forall admissible events ->
    forall (chId : string) (book : Orderbook),
      localOrderbooks (run events) !! chId = Some book ->
      sortedSide true (bids book) /\ sortedSide false (asks book)
      /\ uniquePrices (bids book) /\ uniquePrices (asks book).
Proof.
  intros events Hev chId book Hb.
  refine (foldl_step_allWellFormed events newSubscription Hev _ chId book Hb).
  intros c b Hc. cbn in Hc. rewrite lookup_empty in Hc. discriminate.
Qed.

Lemma scenarioSnapshot_sorted : sortedBook scenarioSnapshot.
Proof.
  split; apply sortedSideb_correct; reflexivity.
Qed.

Lemma run_wellFormed_witness :
  exists book,
    localOrderbooks
      (run [Subscribed "BTC" scenarioSnapshot;
            DeltaReceived "BTC" scenarioDelta]) !! "BTC" = Some book
    /\ bids book = []
    /\ sortedSide true (bids book) /\ sortedSide false (asks book)
    /\ uniquePrices (bids book) /\ uniquePrices (asks book).
Proof.
  eexists. split; [vm_compute; reflexivity|]. split; [reflexivity|].
  apply (run_wellFormed
           [Subscribed "BTC" scenarioSnapshot;
            DeltaReceived "BTC" scenarioDelta]) with (chId := "BTC").
  - constructor; [exact scenarioSnapshot_sorted|].
    constructor; [exact I | constructor].
  - vm_compute. reflexivity.
Defined.

(** The claim as stated fails: a snapshot that repeats a bid price is held
    as it came, and a delta for the other side leaves the repetition in
    place. *)
Lemma run_repeated_price :
  exists book,
    localOrderbooks
      (run [Subscribed "BTC" repeatedSnapshot;
            DeltaReceived "BTC" askDelta]) !! "BTC" = Some book
    /\ bids book = [(100, 5)%Q; (100, 3)%Q]
    /\ ~ sortedSide true (bids book)
    /\ ~ uniquePrices (bids book).
Proof.
  eexists. split; [vm_compute; reflexivity|]. split; [reflexivity|]. split.
  - intros H. apply sortedSideb_correct in H. discriminate H.
  - intros H. specialize (H 0%nat 1%nat (100, 5)%Q (100, 3)%Q eq_refl eq_refl).
    simpl in H. assert (E : 0%nat = 1%nat) by (apply H; reflexivity).
    discriminate E.
Qed.

(** ** A book without a nonce *)

(** C9. While the local book has no nonce, no delta is rejected as stale:
    whatever nonce the delta carries, its level changes are applied, its
    timestamp and nonce are installed and the callback is told; from then on
    a delta whose nonce is not larger than the installed one is dropped. *)
Theorem applyDelta_undefined_nonce :
  forall (s : Subscription) (chId : string) (book : Orderbook)
         (delta : AftermathOrderbookDelta),
    localOrderbooks s !! chId = Some book ->
    nonce book = None ->
    exists book',
      localOrderbooks (applyDelta chId delta s) !! chId = Some book'
      /\ bids book' = applySide true (bids book) (d_bids delta)
      /\ asks book' = applySide false (asks book) (d_asks delta)
      /\ timestamp book' = d_timestamp delta
      /\ nonce book' = Some (d_nonce delta)
      /\ (chId ∈ callbacks s ->
          delivered (applyDelta chId delta s) = (chId, book') :: delivered s)
      /\ forall later : AftermathOrderbookDelta,
           (d_nonce later <= d_nonce delta)%Z ->
           applyDelta chId later (applyDelta chId delta s)
           = applyDelta chId delta s.
Proof.
  intros s chId book delta Hb Hn.
  assert (Ho : isOutOfOrder book delta = false).
  { unfold isOutOfOrder. rewrite Hn. reflexivity. }
  exists (mutateBook book delta).
  assert (Hb' : localOrderbooks (applyDelta chId delta s) !! chId
                = Some (mutateBook book delta)).
  { unfold applyDelta. rewrite Hb, Ho. cbn. apply lookup_insert_eq. }
  split_and!; try reflexivity; [exact Hb' | |].
  { intros Hcb. unfold applyDelta, notify. rewrite Hb, Ho. cbn.
    rewrite bool_decide_eq_true_2 by exact Hcb. reflexivity. }
  intros later Hle. eapply applyDelta_out_of_order; [exact Hb'|].
  unfold isOutOfOrder. simpl. apply Z.leb_le. exact Hle.
Qed.

Lemma applyDelta_undefined_nonce_witness :
  exists book',
    localOrderbooks
      (applyDelta "BTC" scenarioDelta (run [Subscribed "BTC" scenarioSnapshot]))
      !! "BTC" = Some book'
    /\ bids book' = [] /\ nonce book' = Some 1%Z.
Proof.
  assert (H0 : localOrderbooks (run [Subscribed "BTC" scenarioSnapshot])
               !! "BTC" = Some scenarioSnapshot) by (vm_compute; reflexivity).
  destruct (applyDelta_undefined_nonce
              (run [Subscribed "BTC" scenarioSnapshot]) "BTC"
              scenarioSnapshot scenarioDelta H0 eq_refl)
    as (book' & H1 & H2 & _ & _ & H5 & _ & _).
  exists book'. split; [exact H1|]. split; [|exact H5].
  rewrite H2. vm_compute. reflexivity.
Defined.

(** ** Configuration *)

(** C8. [validateConfig] throws for every configuration whose spread, order
    size or close threshold is not positive, or whose [maxPositionUsd] is not
    above [closeThresholdUsd]; it returns normally for a configuration with
    an exchange and a symbol that meets all four conditions. *)
Theorem validateConfig_fatal :
  forall config : Config.MarketMakerConfig,
    ((Config.spreadBps config <= 0
      \/ Config.orderSizeUsd config <= 0
      \/ Config.closeThresholdUsd config <= 0
      \/ Config.maxPositionUsd config <= Config.closeThresholdUsd config)%Q ->
     exists message, Config.validateConfig config = Config.Threw message)
    /\ (Config.exchange config <> EmptyString ->
        Config.symbol config <> EmptyString ->
        (0 < Config.spreadBps config)%Q ->
        (0 < Config.orderSizeUsd config)%Q ->
        (0 < Config.closeThresholdUsd config)%Q ->
        (Config.closeThresholdUsd config < Config.maxPositionUsd config)%Q ->
        Config.validateConfig config = Config.Returned).
Proof.
  intros config. unfold Config.validateConfig, Config.isEmpty. split.
  - intros Hbad.
    destruct (bool_decide (Config.exchange config = EmptyString)); [eauto|].
    destruct (bool_decide (Config.symbol config = EmptyString)); [eauto|].
    destruct (Qle_bool (Config.spreadBps config) 0) eqn:H1; [eauto|].
    destruct (Qle_bool (Config.orderSizeUsd config) 0) eqn:H2; [eauto|].
    destruct (Qle_bool (Config.closeThresholdUsd config) 0) eqn:H3; [eauto|].
    destruct (Qle_bool (Config.maxPositionUsd config)
                (Config.closeThresholdUsd config)) eqn:H4; [eauto|].
    exfalso. apply Qle_bool_false in H1, H2, H3, H4.
    destruct Hbad as [H | [H | [H | H]]]; lra.
  - intros He Hs H1 H2 H3 H4.
    rewrite !bool_decide_eq_false_2 by assumption.
    apply Qle_bool_false in H1, H2, H3, H4.
    rewrite H1, H2, H3, H4. reflexivity.
Qed.

Lemma validateConfig_fatal_witness :
  (exists message,
     Config.validateConfig Config.zeroSpreadConfig = Config.Threw message)
  /\ Config.validateConfig (Config.defaultConfig "hyperliquid" "BTC")
     = Config.Returned.
Proof.
  split.
  - apply (validateConfig_fatal Config.zeroSpreadConfig).
    left. vm_compute. discriminate.
  - apply (validateConfig_fatal (Config.defaultConfig "hyperliquid" "BTC"));
      vm_compute; congruence.
Defined.

(** ** Tick and size rounding in exact arithmetic *)

Lemma tickSize_pos symbol : (0 < Quoter.tickSize symbol)%Q.
Proof.
  unfold Quoter.tickSize.
  destruct (_ || _); [reflexivity|].
  destruct (bool_decide _); reflexivity.
Qed.

Lemma floor_times_le (x t : Q) :
  (0 < t)%Q -> (inject_Z (Qfloor (x / t)) * t <= x)%Q.
Proof.
  intros Ht. pose proof (Qfloor_le (x / t)) as H.
  assert (E : (x / t * t == x)%Q) by (field; lra).
  rewrite <- E at 2. apply Qmult_le_compat_r; [exact H | lra].
Qed.

Lemma ceiling_times_ge (x t : Q) :
  (0 < t)%Q -> (x <= inject_Z (Qceiling (x / t)) * t)%Q.
Proof.
  intros Ht. pose proof (Qle_ceiling (x / t)) as H.
  assert (E : (x / t * t == x)%Q) by (field; lra).
  rewrite <- E at 1. apply Qmult_le_compat_r; [exact H | lra].
Qed.

(** Over the rationals the rounding never narrows the spread. *)
Lemma roundToTick_exact_bounds (q : Quoter.t) (price : Q) :
  (Quoter.roundToTick q price down <= price)%Q
  /\ (price <= Quoter.roundToTick q price up)%Q.
Proof.
  unfold Quoter.roundToTick. split.
  - apply floor_times_le, tickSize_pos.
  - apply ceiling_times_ge, tickSize_pos.
Qed.

Lemma roundSize_zero (q : Quoter.t) : (Quoter.roundSize q 0 == 0)%Q.
Proof.
  unfold Quoter.roundSize. destruct (Quoter.market q) as [m|]; [|reflexivity].
  assert (E : (0 * Qpower 10 (Market.sizePrecision m) == 0)%Q) by ring.
  rewrite (Qfloor_comp _ _ E). reflexivity.
Qed.

Lemma roundSize_pos (q : Quoter.t) (size : Q) :
  (0 < size)%Q ->
  (forall m, Quoter.market q = Some m ->
             (1 <= size * Qpower 10 (Market.sizePrecision m))%Q) ->
  (0 < Quoter.roundSize q size)%Q.
Proof.
  intros Hsize Hm. unfold Quoter.roundSize.
  destruct (Quoter.market q) as [m|]; [|exact Hsize].
  specialize (Hm m eq_refl).
  assert (Hp : (0 < Qpower 10 (Market.sizePrecision m))%Q)
    by (apply Qpower_0_lt; reflexivity).
  apply Qlt_shift_div_l; [exact Hp|].
  assert (Hf : (1 <= Qfloor (size * Qpower 10 (Market.sizePrecision m)))%Z).
  { rewrite <- (Qfloor_Z 1). apply Qfloor_resp_le. exact Hm. }
  assert (Hq : (inject_Z 1 <=
                inject_Z (Qfloor (size * Qpower 10 (Market.sizePrecision m))))%Q).
  { rewrite <- Zle_Qle. exact Hf. }
  change (inject_Z 1) with 1%Q in Hq. lra.
Qed.

(** ** Quotes *)

Lemma generateQuotes_mode (q : Quoter.t) (fairPrice positionNotional : Q) :
  Quoter.isCloseMode (Quoter.generateQuotes q fairPrice positionNotional)
  = Qltb (Config.closeThresholdUsd (Quoter.config q)) (Qabs positionNotional).
Proof. reflexivity. Qed.

Lemma generateQuotes_close (q : Quoter.t) (fairPrice positionNotional : Q) :
  (Config.closeThresholdUsd (Quoter.config q) < Qabs positionNotional)%Q ->
  let quote := Quoter.generateQuotes q fairPrice positionNotional in
  let takeProfitBps := Config.takeProfitBps (Quoter.config q) in
  Quoter.isCloseMode quote = true
  /\ Quoter.spreadBps quote = takeProfitBps
  /\ Quoter.bidPrice quote = Quoter.bidAround q fairPrice takeProfitBps
  /\ Quoter.askPrice quote = Quoter.askAround q fairPrice takeProfitBps
  /\ ((0 < positionNotional)%Q -> (Quoter.bidSize quote == 0)%Q)
  /\ ((positionNotional < 0)%Q -> (Quoter.askSize quote == 0)%Q).
Proof.
  intros Hclose. apply Qltb_true in Hclose.
  unfold Quoter.generateQuotes, Quoter.bidAround, Quoter.askAround.
  cbn zeta. rewrite Hclose. cbn [Quoter.isCloseMode Quoter.spreadBps
    Quoter.bidPrice Quoter.askPrice Quoter.bidSize Quoter.askSize].
  split_and!.
  - reflexivity.
  - reflexivity.
  - destruct (Quoter.market q); reflexivity.
  - destruct (Quoter.market q); reflexivity.
  - intros Hpos. apply Qltb_true in Hpos. rewrite Hpos. cbn [fst].
    destruct (Quoter.market q) eqn:Hm; [|reflexivity].
    apply roundSize_zero.
  - intros Hneg.
    assert (Hpos : Qltb 0 positionNotional = false)
      by (apply Qltb_false; lra).
    rewrite Hpos. cbn [snd].
    destruct (Quoter.market q) eqn:Hm; [|reflexivity].
    apply roundSize_zero.
Qed.

Lemma generateQuotes_normal (q : Quoter.t) (fairPrice positionNotional : Q) :
  (Qabs positionNotional <= Config.closeThresholdUsd (Quoter.config q))%Q ->
  let quote := Quoter.generateQuotes q fairPrice positionNotional in
  let baseSize := (Config.orderSizeUsd (Quoter.config q) / fairPrice)%Q in
  Quoter.isCloseMode quote = false
  /\ Quoter.spreadBps quote = Config.spreadBps (Quoter.config q)
  /\ Quoter.bidSize quote = Quoter.roundSize q baseSize
  /\ Quoter.askSize quote = Quoter.roundSize q baseSize.
Proof.
  intros Hnormal. apply Qltb_false in Hnormal.
  unfold Quoter.generateQuotes. cbn zeta. rewrite Hnormal.
  cbn [Quoter.isCloseMode Quoter.spreadBps Quoter.bidSize Quoter.askSize
       fst snd].
  unfold Quoter.roundSize.
  split_and!; destruct (Quoter.market q); reflexivity.
Qed.

(** C4, as amended.  Above the close threshold the quote is in close mode,
    its half-spread is [takeProfitBps], its prices are built from that
    half-spread, and the side that would add exposure has size zero: the bid
    for a long position, the ask for a short one.  At or below the threshold
    the quote is in normal mode with the half-spread [spreadBps], and both
    sizes are the base size [orderSizeUsd / fairPrice] rounded down to the
    market's size precision; they are positive when the fair price and the
    order size are positive and, if a market is set, the base size is at
    least one unit of that precision. *)
Theorem generateQuotes_modes :
  forall (q : Quoter.t) (fairPrice positionNotional : Q),
    let quote := Quoter.generateQuotes q fairPrice positionNotional in
    let config := Quoter.config q in
    let baseSize := (Config.orderSizeUsd config / fairPrice)%Q in
    ((Config.closeThresholdUsd config < Qabs positionNotional)%Q ->
       Quoter.isCloseMode quote = true
       /\ Quoter.spreadBps quote = Config.takeProfitBps config
       /\ Quoter.bidPrice quote
          = Quoter.bidAround q fairPrice (Config.takeProfitBps config)
       /\ Quoter.askPrice quote
          = Quoter.askAround q fairPrice (Config.takeProfitBps config)
       /\ ((0 < positionNotional)%Q -> (Quoter.bidSize quote == 0)%Q)
       /\ ((positionNotional < 0)%Q -> (Quoter.askSize quote == 0)%Q))
    /\ ((Qabs positionNotional <= Config.closeThresholdUsd config)%Q ->
        Quoter.isCloseMode quote = false
        /\ Quoter.spreadBps quote = Config.spreadBps config
        /\ Quoter.bidSize quote = Quoter.roundSize q baseSize
        /\ Quoter.askSize quote = Quoter.roundSize q baseSize
        /\ ((0 < fairPrice)%Q ->
            (0 < Config.orderSizeUsd config)%Q ->
            (forall m, Quoter.market q = Some m ->
               (1 <= baseSize * Qpower 10 (Market.sizePrecision m))%Q) ->
            (0 < Quoter.bidSize quote)%Q /\ (0 < Quoter.askSize quote)%Q)).
Proof.
  intros q fairPrice pn. cbn zeta. split.
  - apply generateQuotes_close.
  - intros Hnormal.
    destruct (generateQuotes_normal q fairPrice pn Hnormal)
      as (H1 & H2 & H3 & H4).
    assert (Hbase : (0 < fairPrice)%Q ->
                    (0 < Config.orderSizeUsd (Quoter.config q))%Q ->
                    (0 < Config.orderSizeUsd (Quoter.config q) / fairPrice)%Q).
    { intros Hf Ho. apply Qlt_shift_div_l; [exact Hf | lra]. }
    split_and!; try assumption. intros Hf Ho Hm.
    rewrite H3, H4. split; apply roundSize_pos; auto.
Qed.

(** The scenarios of the specification, with a five-decimal market: flat
    at 50000 the quote is in normal mode with both sizes positive; long 600
    it is in close mode at [takeProfitBps] with no bid. *)
Lemma generateQuotes_modes_witness :
  let q := Quoter.setMarket (Quoter.new Quoter.scenarioConfig)
             Quoter.fineMarket in
  (Quoter.isCloseMode (Quoter.generateQuotes q 50000 600) = true
   /\ Quoter.spreadBps (Quoter.generateQuotes q 50000 600) = 5%Q
   /\ (Quoter.bidSize (Quoter.generateQuotes q 50000 600) == 0)%Q)
  /\ (Quoter.isCloseMode (Quoter.generateQuotes q 50000 0) = false
      /\ (0 < Quoter.bidSize (Quoter.generateQuotes q 50000 0))%Q
      /\ (0 < Quoter.askSize (Quoter.generateQuotes q 50000 0))%Q).
Proof.
  intros q. split.
  - destruct (generateQuotes_modes q 50000 600) as [H _].
    destruct H as (H1 & H2 & _ & _ & H5 & _); [reflexivity|].
    split; [exact H1|]. split; [exact H2|]. apply H5. reflexivity.
  - destruct (generateQuotes_modes q 50000 0) as [_ H].
    destruct H as (H1 & _ & _ & _ & H5); [vm_compute; discriminate|].
    split; [exact H1|]. apply H5.
    + reflexivity.
    + reflexivity.
    + intros m Hm. injection Hm as <-. vm_compute. discriminate.
Defined.

(** The claim as stated fails in normal mode: with sizes of two decimals the
    base size 100 / 50000 = 0.002 is rounded down to zero on both sides. *)
Lemma generateQuotes_normal_zero_size :
  let q := Quoter.setMarket (Quoter.new Quoter.scenarioConfig)
             Quoter.coarseMarket in
  let quote := Quoter.generateQuotes q 50000 0 in
  (Qabs 0 <= Config.closeThresholdUsd (Quoter.config q))%Q
  /\ Quoter.isCloseMode quote = false
  /\ (Quoter.bidSize quote == 0)%Q /\ (Quoter.askSize quote == 0)%Q
  /\ ~ (0 < Quoter.bidSize quote)%Q /\ ~ (0 < Quoter.askSize quote)%Q.
Proof.
  vm_compute. repeat split; congruence.
Qed.

(** The two quote scenarios of the specification, before any market is
    set. *)
Example generateQuotes_flat :
  let quote := Quoter.generateQuotes (Quoter.new Quoter.scenarioConfig) 50000 0 in
  (Quoter.bidPrice quote == 49950)%Q /\ (Quoter.askPrice quote == 50050)%Q
  /\ (Quoter.bidSize quote == 2 # 1000)%Q
  /\ (Quoter.askSize quote == 2 # 1000)%Q
  /\ Quoter.isCloseMode quote = false.
Proof. vm_compute. split_and!; reflexivity. Qed.

Example generateQuotes_long :
  let quote :=
    Quoter.generateQuotes (Quoter.new Quoter.scenarioConfig) 50000 600 in
  Quoter.isCloseMode quote = true
  /\ (Quoter.bidPrice quote == 49975)%Q /\ (Quoter.askPrice quote == 50025)%Q
  /\ (Quoter.bidSize quote == 0)%Q /\ (0 < Quoter.askSize quote)%Q.
Proof. vm_compute. split_and!; reflexivity. Qed.

(** ** Orders *)

Lemma quoteToOrders_ignores_mode (q : Quoter.t) (quote : Quoter.Quote) b :
  Quoter.quoteToOrders q (Quoter.withCloseMode b quote)
  = Quoter.quoteToOrders q quote.
Proof. reflexivity. Qed.

(** C10. [quoteToOrders] holds a buy order exactly when the bid size is
    positive and a sell order exactly when the ask size is positive; every
    order is post-only and not reduce-only; the mode flag of the quote has no
    influence on the orders. *)
Theorem quoteToOrders_sides :
  forall (q : Quoter.t) (quote : Quoter.Quote),
    ((exists o, o ∈ Quoter.quoteToOrders q quote /\ OrderRequest.side o = buy)
     <-> (0 < Quoter.bidSize quote)%Q)
    /\ ((exists o, o ∈ Quoter.quoteToOrders q quote
                   /\ OrderRequest.side o = sell)
        <-> (0 < Quoter.askSize quote)%Q)
    /\ (forall o, o ∈ Quoter.quoteToOrders q quote ->
          OrderRequest.postOnly o = Some true
          /\ OrderRequest.reduceOnly o = Some false)
    /\ (forall b : bool,
          Quoter.quoteToOrders q (Quoter.withCloseMode b quote)
          = Quoter.quoteToOrders q quote).
Proof.
  intros q quote.
  cut (((exists o, o ∈ Quoter.quoteToOrders q quote
                   /\ OrderRequest.side o = buy)
        <-> (0 < Quoter.bidSize quote)%Q)
       /\ ((exists o, o ∈ Quoter.quoteToOrders q quote
                      /\ OrderRequest.side o = sell)
           <-> (0 < Quoter.askSize quote)%Q)
       /\ (forall o, o ∈ Quoter.quoteToOrders q quote ->
             OrderRequest.postOnly o = Some true
             /\ OrderRequest.reduceOnly o = Some false)).
  { intros (H1 & H2 & H3). split_and!; try assumption.
    intros b. apply quoteToOrders_ignores_mode. }
  unfold Quoter.quoteToOrders. cbn zeta.
  destruct (Qltb 0 (Quoter.bidSize quote)) eqn:Hb;
    destruct (Qltb 0 (Quoter.askSize quote)) eqn:Ha; cbn [app].
  all: first [apply Qltb_true in Hb | apply Qltb_false in Hb].
  all: first [apply Qltb_true in Ha | apply Qltb_false in Ha].
  all: split_and!.
  all: try (split; [intros (o & Ho & Hside) | intros Hpos]).
  all: try (intros o Ho).
  all: repeat match goal with
       | H : _ ∈ _ :: _ |- _ => apply elem_of_cons in H as [-> | H]
       | H : _ ∈ [] |- _ => apply elem_of_nil in H; contradiction
       end.
  all: try discriminate; try assumption; try (split; reflexivity);
    try (exfalso; lra).
  all: first
    [ eexists; split; [apply list_elem_of_here | reflexivity]
    | eexists; split;
      [apply list_elem_of_further, list_elem_of_here | reflexivity] ].
Qed.

(** ** Tick rounding on doubles *)

(** C7, evaluated on the code.  With the BTC tick [0.1] the bid price
    [30000.3] is rounded "down" to [30000.300000000003], which is above the
    price: the quotient [30000.3 / 0.1] rounds to the integer [300003], and
    [300003 * 0.1] rounds to the next double above [30000.3]. *)
Theorem roundToTick_down_above_price :
  (30000.3 / F64.tickSize "BTC" = 300003)%float
  /\ F64.roundToTick "BTC" 30000.3%float down = 30000.300000000003%float
  /\ PrimFloat.leb (F64.roundToTick "BTC" 30000.3%float down) 30000.3%float
     = false
  /\ PrimFloat.ltb 30000.3%float (F64.roundToTick "BTC" 30000.3%float down)
     = true.
Proof.
  vm_compute. repeat split; reflexivity.
Qed.

(** The same happens in the other direction with the default tick. *)
Lemma roundToTick_up_below_price :
  F64.roundToTick "SUI" 0.00011000000000000002%float up = 0.00011%float
  /\ PrimFloat.ltb (F64.roundToTick "SUI" 0.00011000000000000002%float up)
       0.00011000000000000002%float = true.
Proof.
  vm_compute. repeat split; reflexivity.
Qed.

(** ** Fair price *)

Import FairPrice.

(** The ticks change neither the smoothing factor nor the thresholds nor
    the start time, and each one is counted. *)
Lemma deliver_fields c ticks :
  alpha (deliver c ticks) = alpha c
  /\ minPrices (deliver c ticks) = minPrices c
  /\ warmupMs (deliver c ticks) = warmupMs c
  /\ startTime (deliver c ticks) = startTime c
  /\ priceCount (deliver c ticks) = (priceCount c + length ticks)%nat.
Proof.
  unfold deliver. revert c.
  induction ticks as [|tick ticks IH]; intros c; simpl.
  - rewrite Nat.add_0_r. auto.
  - destruct (IH (updateEMA c (fst tick) (snd tick)))
      as (H1 & H2 & H3 & H4 & H5).
    rewrite H1, H2, H3, H4, H5. simpl. split_and!; try reflexivity. lia.
Qed.

(** Once set, the average is never unset. *)
Lemma updateEMA_ema_set c price timestamp :
  ema (updateEMA c price timestamp) <> None.
Proof. simpl. destruct (ema c); discriminate. Qed.

Lemma deliver_ema_set c ticks :
  ema c <> None \/ ticks <> [] -> ema (deliver c ticks) <> None.
Proof.
  unfold deliver. revert c.
  induction ticks as [|tick ticks IH]; intros c H; simpl.
  - destruct H as [H | H]; [exact H | congruence].
  - apply IH. left. apply updateEMA_ema_set.
Qed.

(** The average after a run of ticks is the recurrence over their prices. *)
Lemma deliver_ema_from c ticks e :
  ema c = Some e ->
  ema (deliver c ticks) = Some (foldl (blend (alpha c)) e ticks.*1).
Proof.
  unfold deliver. revert c e.
  induction ticks as [|tick ticks IH]; intros c e He; simpl.
  - exact He.
  - rewrite (IH (updateEMA c (fst tick) (snd tick))
               (blend (alpha c) e (fst tick))).
    + reflexivity.
    + simpl. rewrite He. reflexivity.
Qed.

Lemma deliver_ema_fresh c ticks :
  ema c = None -> ema (deliver c ticks) = emaOf (alpha c) ticks.*1.
Proof.
  intros He. destruct ticks as [|tick ticks]; simpl.
  - exact He.
  - change (deliver c (tick :: ticks))
      with (deliver (updateEMA c (fst tick) (snd tick)) ticks).
    rewrite (deliver_ema_from _ ticks (fst tick)).
    + reflexivity.
    + simpl. rewrite He. reflexivity.
Qed.

(** C6. Without an explicit [alpha] the constructor fixes the smoothing
    factor at [2 / (windowMs / 1000 + 1)], the window being the configured
    one or the default; no tick changes it.  The first tick makes its price
    the average; each later tick replaces the average [e] by
    [alpha * price + (1 - alpha) * e]; so after any run of ticks the average
    is that recurrence over the prices delivered. *)
Theorem ema_recurrence :
  forall (symbol : string) (config : option FairPriceConfig.t) (now : Z)
         (ticks : list (Q * Z)),
    config ≫= FairPriceConfig.alpha = None ->
    let c := constructor symbol config now in
    let windowMs :=
      orQ (config ≫= FairPriceConfig.windowMs) DEFAULT_WINDOW_MS in
    alpha c = (2 / (windowMs / 1000 + 1))%Q
    /\ alpha (deliver c ticks) = alpha c
    /\ ema c = None
    /\ (forall price timestamp,
          ema (updateEMA c price timestamp) = Some price)
    /\ (forall c' e price timestamp,
          ema c' = Some e ->
          ema (updateEMA c' price timestamp)
          = Some (alpha c' * price + (1 - alpha c') * e)%Q)
    /\ ema (deliver c ticks) = emaOf (alpha c) ticks.*1.
Proof.
  intros symbol config now ticks Halpha. cbn zeta. split_and!.
  - unfold constructor. cbn [alpha]. rewrite Halpha. reflexivity.
  - apply deliver_fields.
  - reflexivity.
  - reflexivity.
  - intros c' e price timestamp He. simpl. rewrite He. reflexivity.
  - apply deliver_ema_fresh. reflexivity.
Qed.

(** With the default window of five minutes the factor is 2/301, and three
    ticks are blended in order. *)
Lemma ema_recurrence_witness :
  (alpha (constructor "BTC" (Some noOptions) 0) == 2 # 301)%Q
  /\ ema (deliver (constructor "BTC" (Some noOptions) 0)
            [(100%Q, 1%Z); (200%Q, 2%Z); (300%Q, 3%Z)])
     = emaOf (alpha (constructor "BTC" (Some noOptions) 0))
         [100%Q; 200%Q; 300%Q].
Proof.
  destruct (ema_recurrence "BTC" (Some noOptions) 0
              [(100%Q, 1%Z); (200%Q, 2%Z); (300%Q, 3%Z)] eq_refl)
    as (H1 & _ & _ & _ & _ & H6).
  split; [rewrite H1; vm_compute; reflexivity | exact H6].
Defined.

(** *** Readiness *)

Lemma isWarmedUp_true c now :
  isWarmedUp c now = true <->
  (warmupMs c <= inject_Z (now - startTime c))%Q
  /\ (minPrices c <= inject_Z (Z.of_nat (priceCount c)))%Q.
Proof.
  unfold isWarmedUp. cbn zeta. rewrite andb_true_iff, !Qle_bool_iff.
  reflexivity.
Qed.

Lemma getFairPrice_None c now :
  getFairPrice c now = None <-> ema c = None \/ isWarmedUp c now = false.
Proof.
  unfold getFairPrice, isReady.
  destruct (ema c) as [e|] eqn:He.
  - rewrite bool_decide_eq_true_2 by discriminate. simpl.
    destruct (isWarmedUp c now); simpl; split;
      try discriminate; auto; intros [H | H]; discriminate.
  - rewrite bool_decide_eq_false_2 by (intros H; apply H; reflexivity).
    simpl. split; auto.
Qed.

(** C5, as amended.  [getFairPrice] answers [null] as long as the time
    elapsed since construction is below the warm-up period or the number of
    ticks received is below the threshold.  Once both conditions hold at a
    call made after at least one tick (which is the case whenever the
    threshold is positive, as the default 10 is), every later call, at a
    clock reading that is not earlier and after any further ticks, answers
    a price. *)
Theorem getFairPrice_ready_forever :
  forall (symbol : string) (config : option FairPriceConfig.t) (start : Z)
         (ticks more : list (Q * Z)) (now later : Z),
    let c := deliver (constructor symbol config start) ticks in
    let c' := deliver c more in
    (((inject_Z (now - start) < warmupMs c)%Q
      \/ (inject_Z (Z.of_nat (length ticks)) < minPrices c)%Q) ->
     getFairPrice c now = None)
    /\ ((warmupMs c <= inject_Z (now - start))%Q ->
        (minPrices c <= inject_Z (Z.of_nat (length ticks)))%Q ->
        (0 < minPrices c)%Q \/ ticks <> [] ->
        (now <= later)%Z ->
        exists price,
          getFairPrice c now = ema c
          /\ getFairPrice c' later = Some price
          /\ ema c' = Some price).
Proof.
  intros symbol config start ticks more now later. cbn zeta.
  set (c0 := constructor symbol config start).
  destruct (deliver_fields c0 ticks) as (_ & Hmin & Hwarm & Hstart & Hcount).
  destruct (deliver_fields (deliver c0 ticks) more)
    as (_ & Hmin' & Hwarm' & Hstart' & Hcount').
  change (startTime c0) with start in Hstart.
  change (priceCount c0) with 0%nat in Hcount. simpl in Hcount.
  split.
  - intros Hnot. apply getFairPrice_None. right.
    destruct (isWarmedUp (deliver c0 ticks) now) eqn:Hw; [|reflexivity].
    apply isWarmedUp_true in Hw as [Hw1 Hw2].
    rewrite Hstart in Hw1. rewrite Hcount in Hw2.
    destruct Hnot as [H | H]; lra.
  - intros Hw1 Hw2 Hsome Hlater.
    assert (Hticks : ticks <> []).
    { destruct Hsome as [Hpos | H]; [|exact H].
      rewrite Hmin in Hpos, Hw2. intros E. rewrite E in Hw2.
      change (inject_Z (Z.of_nat (length []))) with 0%Q in Hw2. lra. }
    assert (He : ema (deliver c0 ticks) <> None)
      by (apply deliver_ema_set; right; exact Hticks).
    assert (He' : ema (deliver (deliver c0 ticks) more) <> None)
      by (apply deliver_ema_set; left; exact He).
    destruct (ema (deliver (deliver c0 ticks) more)) as [price|] eqn:Hp;
      [|congruence].
    exists price. split_and!; [| |reflexivity].
    + unfold getFairPrice, isReady.
      rewrite bool_decide_eq_true_2 by exact He.
      assert (Hw : isWarmedUp (deliver c0 ticks) now = true).
      { apply isWarmedUp_true. rewrite Hstart, Hcount. auto. }
      rewrite Hw. reflexivity.
    + unfold getFairPrice, isReady.
      rewrite bool_decide_eq_true_2 by congruence.
      assert (Hw : isWarmedUp (deliver (deliver c0 ticks) more) later = true).
      { apply isWarmedUp_true.
        rewrite Hstart', Hstart, Hwarm', Hmin', Hcount', Hcount. split.
        - eapply Qle_trans; [exact Hw1|]. rewrite <- Zle_Qle. lia.
        - eapply Qle_trans; [exact Hw2|]. rewrite <- Zle_Qle. lia. }
      rewrite Hw. simpl. exact Hp.
Qed.

(** Two ticks and one second suffice for [shortWindow]; the price is there
    at that call and at a later one after a third tick. *)
Lemma getFairPrice_ready_forever_witness :
  getFairPrice (deliver (constructor "BTC" (Some shortWindow) 0)
                  [(100%Q, 10%Z)]) 2000 = None
  /\ exists price,
       getFairPrice
         (deliver (deliver (constructor "BTC" (Some shortWindow) 0)
                     [(100%Q, 10%Z); (200%Q, 20%Z)])
            [(300%Q, 1500%Z)]) 3000 = Some price.
Proof.
  split.
  - apply (getFairPrice_ready_forever "BTC" (Some shortWindow) 0
             [(100%Q, 10%Z)] [] 2000 2000).
    right. vm_compute. reflexivity.
  - destruct (getFairPrice_ready_forever "BTC" (Some shortWindow) 0
                [(100%Q, 10%Z); (200%Q, 20%Z)] [(300%Q, 1500%Z)] 1000 3000)
      as [_ H].
    destruct H as (price & _ & H & _).
    + vm_compute. discriminate.
    + vm_compute. discriminate.
    + left. vm_compute. reflexivity.
    + lia.
    + exists price. exact H.
Defined.

(** The claim as stated fails for a negative threshold: ten seconds after
    construction and with no tick received both conditions hold, and the
    answer is [null], then and later. *)
Lemma getFairPrice_null_when_warm :
  let c := constructor "BTC" (Some negativeThreshold) 0 in
  (warmupMs c <= inject_Z (10000 - startTime c))%Q
  /\ (minPrices c <= inject_Z (Z.of_nat (priceCount c)))%Q
  /\ isWarmedUp c 10000 = true
  /\ getFairPrice c 10000 = None
  /\ getFairPrice c 20000 = None.
Proof.
  vm_compute. split_and!; congruence.
Qed.

(** * Further properties of the reconciler *)

(** ** Sizes stay positive *)

Lemma reconciled_positive isBid price d levels levels' :
  reconciled isBid price d levels levels' ->
  positiveSide levels -> positiveSide levels'.
Proof.
  unfold positiveSide. intros Hrec. destruct Hrec as
    [pre p a post Hpre Hp Hpos | pre p a post Hpre Hp Hneg
    | pre post Hnone Hd Hpre Hpost | levels Hnone Hd]; intros H.
  - apply Forall_app in H as [H1 H2]. apply Forall_cons in H2 as [_ H2].
    apply Forall_app. split; [exact H1|].
    apply Forall_cons. split; [exact Hpos | exact H2].
  - apply Forall_app in H as [H1 H2]. apply Forall_cons in H2 as [_ H2].
    apply Forall_app. split; assumption.
  - apply Forall_app in H as [H1 H2].
    apply Forall_app. split; [exact H1|].
    apply Forall_cons. split; [exact Hd | exact H2].
  - exact H.
Qed.

Lemma applySide_positive isBid deltas levels :
  positiveSide levels -> positiveSide (applySide isBid levels deltas).
Proof.
  unfold applySide. revert levels.
  induction deltas as [|[p d] deltas IH]; intros levels H; simpl.
  - exact H.
  - apply IH. eapply reconciled_positive; [|exact H].
    apply applyPriceLevelDelta_reconciled.
Qed.

Lemma step_positive s e :
  carriesPositive e ->
  (forall chId book, localOrderbooks s !! chId = Some book -> positiveBook book) ->
  forall chId book,
    localOrderbooks (step s e) !! chId = Some book -> positiveBook book.
Proof.
  intros He Hall.
  destruct e as [c snapshot | c delta | c | c | c |]; simpl; intros chId book.
  - unfold subscribeOrderbook. case_bool_decide; [apply Hall|].
    cbn. rewrite lookup_insert. case_decide; [|apply Hall].
    intros [= <-]. exact He.
  - unfold applyDelta.
    destruct (localOrderbooks s !! c) as [b|] eqn:Hb; [|apply Hall].
    destruct (isOutOfOrder b delta); [apply Hall|].
    cbn. rewrite lookup_insert. case_decide; [|apply Hall].
    intros [= <-]. destruct (Hall c b Hb) as [H1 H2].
    split; simpl; apply applySide_positive; assumption.
  - apply Hall.
  - apply Hall.
  - cbn. rewrite lookup_delete. case_decide; [discriminate | apply Hall].
  - cbn. rewrite lookup_empty. discriminate.
Qed.

(** X1. No level of size zero or below is ever held: one price-level
    change keeps every size of a side positive, and so does every book along
    a stream whose snapshots have positive sizes. *)
Theorem sizes_stay_positive :
  (forall (isBid : bool) (levels : list PriceLevel) (price sizeDelta : Q),
     positiveSide levels ->
     positiveSide (applyPriceLevelDelta levels price sizeDelta isBid))
  /\ (forall (events : list Event),
        Forall carriesPositive events ->
        forall (chId : string) (book : Orderbook),
          getLocalOrderbook chId (run events) = Some book ->
          positiveSide (bids book) /\ positiveSide (asks book)).
Proof.
  split.
  - intros isBid levels price d H.
    eapply reconciled_positive; [|exact H].
    apply applyPriceLevelDelta_reconciled.
  - intros events Hev. unfold run, getLocalOrderbook.
    assert (Hgen : forall s,
      (forall chId book,
         localOrderbooks s !! chId = Some book -> positiveBook book) ->
      forall chId book,
        localOrderbooks (foldl step s events) !! chId = Some book ->
        positiveBook book).
    { induction Hev as [|e events He _ IH]; intros s Hs; simpl.
      - exact Hs.
      - apply IH. apply step_positive; assumption. }
    apply Hgen. intros c b Hc. cbn in Hc. rewrite lookup_empty in Hc.
    discriminate.
Qed.

Lemma sizes_stay_positive_witness :
  positiveSide (applyPriceLevelDelta [(100, 5)%Q] 100 (-2) true)
  /\ positiveSide (applyPriceLevelDelta [(100, 5)%Q] 100 (-7) true).
Proof.
  assert (H : positiveSide [(100, 5)%Q])
    by (constructor; [reflexivity | constructor]).
  destruct sizes_stay_positive as [Hone _].
  split; apply Hone; exact H.
Defined.

(** ** Nonces *)

Lemma applyDeltas_nonce chId deltas : forall s book n,
  localOrderbooks s !! chId = Some book ->
  nonce book = Some n ->
  exists book',
    localOrderbooks (applyDeltas chId deltas s) !! chId = Some book'
    /\ nonce book' = Some (latestNonce n deltas).
Proof.
  unfold applyDeltas, latestNonce.
  induction deltas as [|delta deltas IH]; intros s book n Hb Hn; simpl.
  - eauto.
  - pose proof (applyDelta_lookup chId delta s book Hb) as Hb'.
    eapply IH; [exact Hb'|].
    unfold isOutOfOrder. rewrite Hn.
    destruct (d_nonce delta <=? n)%Z eqn:Hle.
    + apply Z.leb_le in Hle. rewrite Hn. f_equal. lia.
    + apply Z.leb_gt in Hle. simpl. f_equal. lia.
Qed.

Lemma latestNonce_ge n deltas : (n <= latestNonce n deltas)%Z.
Proof.
  unfold latestNonce. revert n.
  induction deltas as [|delta deltas IH]; intros n; simpl.
  - lia.
  - specialize (IH (Z.max n (d_nonce delta))). lia.
Qed.

(** X2. Once a book holds a nonce, a run of deltas leaves it with the
    largest nonce among the one it held and those delivered: the nonce never
    decreases, whatever the order of arrival. *)
Theorem nonce_is_latest :
  forall (chId : string) (deltas : list AftermathOrderbookDelta)
         (s : Subscription) (book : Orderbook) (n : Z),
    getLocalOrderbook chId s = Some book ->
    nonce book = Some n ->
    exists book',
      getLocalOrderbook chId (applyDeltas chId deltas s) = Some book'
      /\ nonce book' = Some (latestNonce n deltas)
      /\ (n <= latestNonce n deltas)%Z.
Proof.
  intros chId deltas s book n Hb Hn.
  destruct (applyDeltas_nonce chId deltas s book n Hb Hn) as (book' & H1 & H2).
  exists book'. split_and!; [exact H1 | exact H2 | apply latestNonce_ge].
Qed.

Lemma nonce_is_latest_witness :
  exists book',
    getLocalOrderbook "BTC"
      (applyDeltas "BTC" [askDelta; scenarioDelta]
         (run [Subscribed "BTC" repeatedSnapshot])) = Some book'
    /\ nonce book' = Some 8%Z.
Proof.
  destruct (nonce_is_latest "BTC" [askDelta; scenarioDelta]
              (run [Subscribed "BTC" repeatedSnapshot]) repeatedSnapshot 7%Z)
    as (book' & H1 & H2 & _).
  - vm_compute. reflexivity.
  - reflexivity.
  - exists book'. split; [exact H1 | exact H2].
Defined.

(** ** What a delta leaves alone *)

(** X3. A delta for one market changes nothing of another market's book,
    registers or drops no callback and no event source, and keeps the symbol
    of the book it is applied to. *)
Theorem applyDelta_frame :
  forall (chId other : string) (delta : AftermathOrderbookDelta)
         (s : Subscription),
    callbacks (applyDelta chId delta s) = callbacks s
    /\ eventSources (applyDelta chId delta s) = eventSources s
    /\ (other <> chId ->
        getLocalOrderbook other (applyDelta chId delta s)
        = getLocalOrderbook other s)
    /\ (forall book book',
          getLocalOrderbook chId s = Some book ->
          getLocalOrderbook chId (applyDelta chId delta s) = Some book' ->
          symbol book' = symbol book).
Proof.
  intros chId other delta s. unfold getLocalOrderbook, applyDelta.
  destruct (localOrderbooks s !! chId) as [b|] eqn:Hb.
  - destruct (isOutOfOrder b delta) eqn:Ho; cbn.
    + split_and!; try reflexivity. intros book book' [= <-] H.
      rewrite Hb in H. injection H as <-. reflexivity.
    + split_and!; try reflexivity.
      * intros Hne. apply lookup_insert_ne. congruence.
      * intros book book' [= <-] H. rewrite lookup_insert_eq in H.
        injection H as <-. reflexivity.
  - split_and!; try reflexivity. intros book book' H. discriminate.
Qed.

(** ** Markets without a book *)

(** X4. A delta for a market that has no local book is dropped without
    any effect; this is the case of a market never subscribed, of a market
    just unsubscribed, and of every market after [disconnect]. *)
Theorem applyDelta_without_book :
  forall (chId : string) (delta : AftermathOrderbookDelta) (s : Subscription),
    (getLocalOrderbook chId s = None -> applyDelta chId delta s = s)
    /\ applyDelta chId delta (unsubscribeOrderbook chId s)
       = unsubscribeOrderbook chId s
    /\ applyDelta chId delta (disconnect s) = disconnect s
    /\ applyDelta chId delta newSubscription = newSubscription.
Proof.
  intros chId delta s. unfold getLocalOrderbook. split_and!.
  - intros H. unfold applyDelta. rewrite H. reflexivity.
  - unfold applyDelta, unsubscribeOrderbook. cbn.
    rewrite lookup_delete_eq. reflexivity.
  - unfold applyDelta, disconnect. cbn. rewrite lookup_empty. reflexivity.
  - unfold applyDelta, newSubscription. cbn. rewrite lookup_empty.
    reflexivity.
Qed.

Lemma applyDelta_without_book_witness :
  applyDelta "ETH" scenarioDelta (run [Subscribed "BTC" scenarioSnapshot])
  = run [Subscribed "BTC" scenarioSnapshot].
Proof.
  destruct (applyDelta_without_book "ETH" scenarioDelta
              (run [Subscribed "BTC" scenarioSnapshot])) as [H _].
  apply H. vm_compute. reflexivity.
Defined.

(** ** Subscribing *)



(** ** A level inserted and taken back *)

(** X6. A positive amount placed at a price that holds no level, followed
    by the opposite amount at the same price, gives back the side exactly as
    it was. *)
Theorem applyPriceLevelDelta_undo :
  forall (isBid : bool) (levels : list PriceLevel) (price amount : Q),
    Forall (fun lv => ~ (fst lv == price)%Q) levels ->
    (0 < amount)%Q ->
    applyPriceLevelDelta
      (applyPriceLevelDelta levels price amount isBid) price (- amount) isBid
    = levels.
Proof.
  intros isBid levels price d Hnone Hd.
  apply Forall_atPrice_false in Hnone.
  rewrite (applyPriceLevelDelta_absent _ _ _ _ Hnone).
  apply Qltb_true in Hd. rewrite Hd.
  assert (Hzero : Qle_bool (d + - d) 0 = true)
    by (apply Qle_bool_iff; lra).
  assert (Hat : atPrice price (price, d) = true)
    by (apply atPrice_true; reflexivity).
  destruct (findIndex (beyond isBid price) levels) as [j|] eqn:Hj.
  - assert (Hpre : Forall (fun lv => atPrice price lv = false) (take j levels)).
    { rewrite <- (take_drop j levels) in Hnone.
      apply Forall_app in Hnone as [H _]. exact H. }
    rewrite (applyPriceLevelDelta_existing _ _ _ _ _ _ _ Hpre Hat), Hzero.
    apply take_drop.
  - rewrite (applyPriceLevelDelta_existing _ _ _ _ _ _ _ Hnone Hat), Hzero.
    apply app_nil_r.
Qed.

Lemma applyPriceLevelDelta_undo_witness :
  applyPriceLevelDelta
    (applyPriceLevelDelta [(101, 5)%Q; (103, 2)%Q] 102 4 false) 102 (- 4) false
  = [(101, 5)%Q; (103, 2)%Q].
Proof.
  apply applyPriceLevelDelta_undo.
  - repeat constructor; vm_compute; discriminate.
  - reflexivity.
Defined.

(** ** The changes of one delta, price by price *)

Lemma netSize_Qeq q q' old deltas :
  (q == q')%Q -> netSize q old deltas = netSize q' old deltas.
Proof.
  intros Hq. unfold netSize. revert old.
  induction deltas as [|[p d] deltas IH]; intros old; simpl.
  - reflexivity.
  - rewrite Hq. apply IH.
Qed.

(** X7. On a strictly sorted side the changes of a delta act price by
    price: the size a price ends with is the size it had, taken through the
    changes listed for that price in their order; changes listed for other
    prices have no influence on it. *)
Theorem applySide_netSize :
  forall (isBid : bool) (deltas : list (Q * Q)) (levels : list PriceLevel)
         (q : Q),
    sortedSide isBid levels ->
    sizeAt q (applySide isBid levels deltas)
    = netSize q (sizeAt q levels) deltas.
Proof.
  intros isBid deltas. unfold applySide, netSize.
  induction deltas as [|[p d] deltas IH]; intros levels q Hs; simpl.
  - reflexivity.
  - rewrite IH by (apply applyPriceLevelDelta_sorted; exact Hs).
    f_equal.
    rewrite (reconciled_sizeAt isBid p d levels _
               (applyPriceLevelDelta_reconciled isBid levels p d) Hs q).
    destruct (Qeq_bool q p) eqn:Hq; [|reflexivity].
    apply Qeq_bool_eq in Hq. rewrite (sizeAt_Qeq q p) by exact Hq.
    reflexivity.
Qed.

Lemma applySide_netSize_witness :
  sizeAt 100 (applySide true [(100, 5)%Q; (99, 1)%Q]
                [(100, -2)%Q; (98, 3)%Q; (100, -3)%Q; (100, 4)%Q])
  = Some 4%Q.
Proof.
  rewrite (applySide_netSize true
             [(100, -2)%Q; (98, 3)%Q; (100, -3)%Q; (100, 4)%Q]
             [(100, 5)%Q; (99, 1)%Q] 100).
  - vm_compute. reflexivity.
  - apply sortedSideb_correct. reflexivity.
Defined.

(** * The life of a subscription *)

(** X21. Unsubscribing removes the book, the callback and the event
    source of that market only, leaving every other market as it was;
    subscribing again afterwards installs the new snapshot; after
    [disconnect] no book is held and the manager is not connected. *)
Theorem unsubscribeOrderbook_only :
  forall (chId other : string) (snapshot : Orderbook) (s : Subscription),
    getLocalOrderbook chId (unsubscribeOrderbook chId s) = None
    /\ (chId ∉ callbacks (unsubscribeOrderbook chId s))
    /\ (chId ∉ eventSources (unsubscribeOrderbook chId s))
    /\ (other <> chId ->
        getLocalOrderbook other (unsubscribeOrderbook chId s)
        = getLocalOrderbook other s
        /\ (other ∈ callbacks (unsubscribeOrderbook chId s)
            <-> other ∈ callbacks s)
        /\ (other ∈ eventSources (unsubscribeOrderbook chId s)
            <-> other ∈ eventSources s))
    /\ getLocalOrderbook chId
         (subscribeOrderbook chId snapshot (unsubscribeOrderbook chId s))
       = Some snapshot
    /\ getLocalOrderbook other (disconnect s) = None
    /\ connected (disconnect s) = false.
Proof.
  intros chId other snapshot s. unfold getLocalOrderbook.
  assert (Hout : forall X : gset string, chId ∉ X ∖ {[chId]}).
  { intros X H. apply elem_of_difference in H as [_ H].
    apply H, elem_of_singleton. reflexivity. }
  assert (Hkeep : forall X : gset string,
            other <> chId -> (other ∈ X ∖ {[chId]} <-> other ∈ X)).
  { intros X Hne. rewrite elem_of_difference, elem_of_singleton. tauto. }
  split_and!.
  - cbn. apply lookup_delete_eq.
  - cbn. apply Hout.
  - cbn. apply Hout.
  - intros Hne. cbn. split_and!.
    + apply lookup_delete_ne. congruence.
    + apply Hkeep. exact Hne.
    + apply Hkeep. exact Hne.
  - unfold subscribeOrderbook.
    rewrite bool_decide_eq_false_2 by (cbn; apply Hout).
    cbn. apply lookup_insert_eq.
  - cbn. apply lookup_empty.
  - unfold connected. cbn. apply bool_decide_eq_false_2. intros H.
    apply H. reflexivity.
Qed.

Lemma step_delivered_sorted s e :
  admissible e ->
  allWellFormed s -> Forall (fun cb => sortedBook cb.2) (delivered s) ->
  Forall (fun cb => sortedBook cb.2) (delivered (step s e)).
Proof.
  intros He Hall Hdel.
  destruct e as [c snapshot | c delta | c | c | c |]; simpl;
    try exact Hdel.
  - unfold subscribeOrderbook. case_bool_decide; [exact Hdel|].
    cbn. constructor; [exact He | exact Hdel].
  - unfold applyDelta.
    destruct (localOrderbooks s !! c) as [b|] eqn:Hb; [|exact Hdel].
    destruct (isOutOfOrder b delta); [exact Hdel|].
    cbn. unfold notify. case_bool_decide; [|exact Hdel].
    constructor; [|exact Hdel]. cbn.
    destruct (mutateBook_wellFormed b delta (Hall c b Hb)) as (H1 & H2 & _).
    split; assumption.
Qed.

(** X22. A callback is only ever handed sorted books: along a stream
    whose snapshots are sorted, every book delivered, be it a snapshot or a
    book just changed by a delta, has strictly descending bids and strictly
    ascending asks. *)
Theorem delivered_books_sorted :
  forall (events : list Event),
    Forall admissible events ->
    forall (chId : string) (book : Orderbook),
      (chId, book) ∈ delivered (run events) ->
      sortedSide true (bids book) /\ sortedSide false (asks book).
Proof.
  intros events Hev.
  assert (Hgen : forall s,
            allWellFormed s ->
            Forall (fun cb => sortedBook cb.2) (delivered s) ->
            Forall (fun cb => sortedBook cb.2)
                   (delivered (foldl step s events))).
  { induction Hev as [|e rest He _ IH]; intros s Hall Hdel; simpl.
    - exact Hdel.
    - apply IH.
      + apply step_allWellFormed; assumption.
      + apply step_delivered_sorted; assumption. }
  assert (Hrun : Forall (fun cb => sortedBook cb.2) (delivered (run events))).
  { apply Hgen.
    - intros c b Hc. cbn in Hc. rewrite lookup_empty in Hc. discriminate.
    - constructor. }
  intros chId book Hin.
  rewrite Forall_forall in Hrun. exact (Hrun (chId, book) Hin).
Qed.

Lemma delivered_books_sorted_witness :
  sortedSide true (bids (mutateBook scenarioSnapshot scenarioDelta))
  /\ sortedSide false (asks (mutateBook scenarioSnapshot scenarioDelta)).
Proof.
  apply (delivered_books_sorted
           [Subscribed "BTC" scenarioSnapshot;
            DeltaReceived "BTC" scenarioDelta]) with (chId := "BTC").
  - constructor; [exact scenarioSnapshot_sorted|].
    constructor; [exact I | constructor].
  - vm_compute. apply list_elem_of_here.
Defined.

(** * Further properties of the quoter *)

(** ** The orders of a quote in close mode *)

(** X11. The orders made of a freshly generated quote: above the close
    threshold a long position yields sell orders only and a short position
    buy orders only, at most one order in all; in every case there are at
    most two orders, and a buy order comes before a sell order. *)
Theorem close_mode_orders :
  forall (q : Quoter.t) (fairPrice positionNotional : Q),
    let orders :=
      Quoter.quoteToOrders q
        (Quoter.generateQuotes q fairPrice positionNotional) in
    ((Config.closeThresholdUsd (Quoter.config q) < Qabs positionNotional)%Q ->
     (length orders <= 1)%nat
     /\ ((0 < positionNotional)%Q ->
         forall o, o ∈ orders -> OrderRequest.side o = sell)
     /\ ((positionNotional < 0)%Q ->
         forall o, o ∈ orders -> OrderRequest.side o = buy))
    /\ (length orders <= 2)%nat
    /\ (forall i j a b,
          orders !! i = Some a -> orders !! j = Some b ->
          OrderRequest.side a = buy -> OrderRequest.side b = sell ->
          (i < j)%nat).
Proof.
  intros q fairPrice pn. cbn zeta.
  set (quote := Quoter.generateQuotes q fairPrice pn).
  assert (Hshape : forall b a : bool,
    Qltb 0 (Quoter.bidSize quote) = b -> Qltb 0 (Quoter.askSize quote) = a ->
    exists bo so,
      OrderRequest.side bo = buy /\ OrderRequest.side so = sell
      /\ Quoter.quoteToOrders q quote
         = (if b then [bo] else []) ++ (if a then [so] else [])).
  { intros b a Hb Ha. unfold Quoter.quoteToOrders. cbn zeta.
    rewrite Hb, Ha. do 2 eexists. split_and!; [| |destruct b, a; reflexivity];
      reflexivity. }
  destruct (Hshape _ _ eq_refl eq_refl) as (bo & so & Hbo & Hso & Hord).
  rewrite Hord. clear Hshape Hord.
  remember (Qltb 0 (Quoter.bidSize quote)) as hasBid eqn:Eb.
  remember (Qltb 0 (Quoter.askSize quote)) as hasAsk eqn:Ea.
  symmetry in Eb, Ea. split_and!.
  - intros Hclose.
    destruct (generateQuotes_close q fairPrice pn Hclose)
      as (_ & _ & _ & _ & Hlong & Hshort).
    fold quote in Hlong, Hshort.
    assert (Hl : (0 < pn)%Q -> hasBid = false).
    { intros Hp. rewrite <- Eb. apply Qltb_false. rewrite (Hlong Hp). lra. }
    assert (Hs : (pn <= 0)%Q -> hasAsk = false).
    { intros Hp. rewrite <- Ea. apply Qltb_false.
      assert (Hlt : Qltb 0 pn = false) by (apply Qltb_false; exact Hp).
      unfold quote, Quoter.generateQuotes. cbn zeta. cbn [Quoter.askSize].
      apply Qltb_true in Hclose. rewrite Hclose, Hlt. cbn [snd].
      destruct (Quoter.market q) eqn:Hm; [|lra].
      rewrite roundSize_zero. lra. }
    split_and!.
    + destruct (Qlt_le_dec 0 pn) as [Hp | Hp].
      * rewrite (Hl Hp). destruct hasAsk; simpl; lia.
      * rewrite (Hs Hp). destruct hasBid; simpl; lia.
    + intros Hp o Ho. rewrite (Hl Hp) in Ho. simpl in Ho.
      destruct hasAsk.
      * apply list_elem_of_singleton in Ho as ->. exact Hso.
      * apply elem_of_nil in Ho. contradiction.
    + intros Hn o Ho. rewrite (Hs ltac:(lra)), app_nil_r in Ho.
      destruct hasBid.
      * apply list_elem_of_singleton in Ho as ->. exact Hbo.
      * apply elem_of_nil in Ho. contradiction.
  - destruct hasBid, hasAsk; simpl; lia.
  - intros i j a b Hi Hj Ha Hb.
    destruct hasBid, hasAsk; simpl in Hi, Hj.
    + destruct i as [|[|i]], j as [|[|j]]; simpl in Hi, Hj;
        try discriminate; try lia; congruence.
    + destruct j as [|j]; simpl in Hj; [|discriminate]. congruence.
    + destruct i as [|i]; simpl in Hi; [|discriminate]. congruence.
    + discriminate.
Qed.

Lemma close_mode_orders_witness :
  Forall (fun o => OrderRequest.side o = sell)
    (Quoter.quoteToOrders (Quoter.new Quoter.scenarioConfig)
       (Quoter.generateQuotes (Quoter.new Quoter.scenarioConfig) 50000 600)).
Proof.
  apply Forall_forall.
  destruct (close_mode_orders (Quoter.new Quoter.scenarioConfig) 50000 600)
    as [H _].
  destruct H as (_ & H & _); [reflexivity|].
  apply H. reflexivity.
Defined.

(** * Positions *)

Lemma orQ_nonneg (x : option Q) (d : Q) :
  (forall v, x = Some v -> (0 <= v)%Q) -> (0 <= d)%Q ->
  (0 <= FairPrice.orQ x d)%Q.
Proof.
  intros Hx Hd. unfold FairPrice.orQ. destruct x as [v|]; [|exact Hd].
  destruct (Qeq_bool v 0); [exact Hd | apply Hx; reflexivity].
Qed.

(** X12. Whatever the manager held before, a missing position or one of
    size zero resets every field of the position: the symbol is the
    configured one, there is no side, and size, entry price, notional,
    profit and margin are zero; the mark price is the one given with the
    update when there is one and it is not zero, and zero otherwise.  The
    signed notional is then zero, and with a non-negative close threshold
    and a positive maximum the manager is neither in close mode nor at its
    maximum and allows orders on both sides. *)
Theorem updatePosition_flat :
  forall (pm : PositionManager.t) (exchangePosition : option Position.t)
         (markPrice : option Q),
    (forall ep, exchangePosition = Some ep -> (Position.size ep == 0)%Q) ->
    let pm' := PositionManager.updatePosition pm exchangePosition markPrice in
    let held := PositionManager.position pm' in
    PositionManager.config pm' = PositionManager.config pm
    /\ PositionManager.symbol held = Config.symbol (PositionManager.config pm)
    /\ PositionManager.side held = none
    /\ PositionManager.size held = 0%Q
    /\ PositionManager.entryPrice held = 0%Q
    /\ match markPrice with
       | Some given =>
           ((given == 0)%Q -> PositionManager.markPrice held = 0%Q)
           /\ (~ (given == 0)%Q -> PositionManager.markPrice held = given)
       | None => PositionManager.markPrice held = 0%Q
       end
    /\ PositionManager.notional held = 0%Q
    /\ PositionManager.unrealizedPnl held = 0%Q
    /\ PositionManager.margin held = 0%Q
    /\ PositionManager.getSignedNotional pm' = 0%Q
    /\ ((0 <= Config.closeThresholdUsd (PositionManager.config pm))%Q ->
        (0 < Config.maxPositionUsd (PositionManager.config pm))%Q ->
        PositionManager.isCloseMode pm' = false
        /\ PositionManager.isAtMax pm' = false
        /\ forall orderSide,
             PositionManager.canAddPosition pm' orderSide = true).
Proof.
  intros pm ep markPrice Hzero. cbn zeta.
  assert (Hside : PositionManager.side
                    (PositionManager.position
                       (PositionManager.updatePosition pm ep markPrice))
                  = none).
  { unfold PositionManager.updatePosition. destruct ep as [p|]; [|reflexivity].
    rewrite (Qeq_eq_bool _ _ (Hzero p eq_refl)). reflexivity. }
  assert (Hnotional : PositionManager.notional
                        (PositionManager.position
                           (PositionManager.updatePosition pm ep markPrice))
                      = 0%Q).
  { unfold PositionManager.updatePosition. destruct ep as [p|]; [|reflexivity].
    rewrite (Qeq_eq_bool _ _ (Hzero p eq_refl)). reflexivity. }
  assert (Hconfig : PositionManager.config
                      (PositionManager.updatePosition pm ep markPrice)
                    = PositionManager.config pm).
  { unfold PositionManager.updatePosition. destruct ep as [p|]; [|reflexivity].
    rewrite (Qeq_eq_bool _ _ (Hzero p eq_refl)). reflexivity. }
  assert (Hmark : PositionManager.markPrice
                    (PositionManager.position
                       (PositionManager.updatePosition pm ep markPrice))
                  = match markPrice with
                    | Some given => if Qeq_bool given 0 then 0%Q else given
                    | None => 0%Q
                    end).
  { unfold PositionManager.updatePosition.
    destruct ep as [p|];
      [rewrite (Qeq_eq_bool _ _ (Hzero p eq_refl))|]; reflexivity. }
  split; [exact Hconfig|].
  split.
  { unfold PositionManager.updatePosition. destruct ep as [p|]; [|reflexivity].
    rewrite (Qeq_eq_bool _ _ (Hzero p eq_refl)). reflexivity. }
  split; [exact Hside|].
  split.
  { unfold PositionManager.updatePosition. destruct ep as [p|]; [|reflexivity].
    rewrite (Qeq_eq_bool _ _ (Hzero p eq_refl)). reflexivity. }
  split.
  { unfold PositionManager.updatePosition. destruct ep as [p|]; [|reflexivity].
    rewrite (Qeq_eq_bool _ _ (Hzero p eq_refl)). reflexivity. }
  split.
  { rewrite Hmark. destruct markPrice as [given|]; [|reflexivity].
    destruct (Qeq_bool given 0) eqn:Hgiven.
    - split; [reflexivity|]. intros Hne. exfalso. apply Hne.
      apply Qeq_bool_eq. exact Hgiven.
    - apply Qeq_bool_false in Hgiven. split; [|reflexivity].
      intros He. exfalso. exact (Hgiven He). }
  split; [exact Hnotional|].
  split.
  { unfold PositionManager.updatePosition. destruct ep as [p|]; [|reflexivity].
    rewrite (Qeq_eq_bool _ _ (Hzero p eq_refl)). reflexivity. }
  split.
  { unfold PositionManager.updatePosition. destruct ep as [p|]; [|reflexivity].
    rewrite (Qeq_eq_bool _ _ (Hzero p eq_refl)). reflexivity. }
  split.
  { unfold PositionManager.getSignedNotional. rewrite Hside. reflexivity. }
  intros Hthr Hmax.
  assert (Hc : PositionManager.isCloseMode
                 (PositionManager.updatePosition pm ep markPrice) = false).
  { unfold PositionManager.isCloseMode. rewrite Hnotional, Hconfig.
    apply Qltb_false. exact Hthr. }
  assert (Hm : PositionManager.isAtMax
                 (PositionManager.updatePosition pm ep markPrice) = false).
  { unfold PositionManager.isAtMax. rewrite Hnotional, Hconfig.
    apply Qle_bool_false. exact Hmax. }
  split; [exact Hc|]. split; [exact Hm|].
  intros orderSide. unfold PositionManager.canAddPosition.
  rewrite Hm, Hc. reflexivity.
Qed.

(** A manager that holds a short position of two contracts at its maximum
    is reset by an answer of the venue with zero contracts, and by no
    position at all. *)
Lemma updatePosition_flat_witness :
  let shortManager :=
    PositionManager.updatePosition
      (PositionManager.new Quoter.scenarioConfig)
      (Some (Account.toPosition Account.shortAnswer)) None in
  let afterZero :=
    PositionManager.updatePosition shortManager
      (Some (Account.toPosition Account.emptyAnswer)) (Some 50000%Q) in
  let afterNone :=
    PositionManager.updatePosition shortManager None None in
  PositionManager.side (PositionManager.position shortManager) = short
  /\ PositionManager.canAddPosition shortManager sell = false
  /\ PositionManager.side (PositionManager.position afterZero) = none
  /\ PositionManager.notional (PositionManager.position afterZero) = 0%Q
  /\ PositionManager.markPrice (PositionManager.position afterZero) = 50000%Q
  /\ PositionManager.canAddPosition afterZero sell = true
  /\ PositionManager.side (PositionManager.position afterNone) = none
  /\ PositionManager.markPrice (PositionManager.position afterNone) = 0%Q
  /\ PositionManager.getSignedNotional afterNone = 0%Q.
Proof.
  cbn zeta.
  set (shortManager :=
         PositionManager.updatePosition
           (PositionManager.new Quoter.scenarioConfig)
           (Some (Account.toPosition Account.shortAnswer)) None).
  assert (Hzero : forall ep,
             Some (Account.toPosition Account.emptyAnswer) = Some ep ->
             (Position.size ep == 0)%Q).
  { intros ep H. injection H as <-. vm_compute. reflexivity. }
  assert (Hnone : forall ep, @None Position.t = Some ep ->
                             (Position.size ep == 0)%Q).
  { intros ep H. discriminate H. }
  destruct (updatePosition_flat shortManager
              (Some (Account.toPosition Account.emptyAnswer))
              (Some 50000%Q) Hzero)
    as (_ & _ & Hside & _ & _ & [_ Hmark] & Hnotional & _ & _ & _ & Hcan).
  destruct (updatePosition_flat shortManager None None Hnone)
    as (_ & _ & Hside' & _ & _ & Hmark' & _ & _ & _ & Hsigned & _).
  assert (Hthr : (0 <= Config.closeThresholdUsd
                         (PositionManager.config shortManager))%Q)
    by (vm_compute; discriminate).
  assert (Hmax : (0 < Config.maxPositionUsd
                        (PositionManager.config shortManager))%Q)
    by (vm_compute; reflexivity).
  destruct (Hcan Hthr Hmax) as (_ & _ & Hsides).
  split; [vm_compute; reflexivity|].
  split; [vm_compute; reflexivity|].
  split; [exact Hside|].
  split; [exact Hnotional|].
  split; [apply Hmark; vm_compute; discriminate|].
  split; [exact (Hsides sell)|].
  split; [exact Hside'|].
  split; [exact Hmark'|].
  exact Hsigned.
Defined.

(** X13. Each update replaces the position wholesale: the new state
    depends on the configuration and the arguments only, not on the state
    held before.  It keeps the configuration, has a non-negative size, and
    its notional is its size times its mark price; when no price offered is
    negative the notional is non-negative. *)
Theorem updatePosition_invariant :
  forall (pm : PositionManager.t) (exchangePosition : option Position.t)
         (markPrice : option Q),
    let pm' := PositionManager.updatePosition pm exchangePosition markPrice in
    let p := PositionManager.position pm' in
    (forall other,
       PositionManager.config other = PositionManager.config pm ->
       PositionManager.updatePosition other exchangePosition markPrice = pm')
    /\ PositionManager.config pm' = PositionManager.config pm
    /\ (0 <= PositionManager.size p)%Q
    /\ (PositionManager.notional p
        == PositionManager.size p * PositionManager.markPrice p)%Q
    /\ ((forall v, markPrice = Some v -> (0 <= v)%Q) ->
        (forall ep, exchangePosition = Some ep ->
           (0 <= Position.entryPrice ep)%Q
           /\ forall v, Position.markPrice ep = Some v -> (0 <= v)%Q) ->
        (0 <= PositionManager.markPrice p)%Q
        /\ (0 <= PositionManager.notional p)%Q).
Proof.
  intros pm ep markPrice. cbn zeta. split_and!.
  - intros other Hcfg. unfold PositionManager.updatePosition.
    rewrite Hcfg. reflexivity.
  - unfold PositionManager.updatePosition.
    destruct ep as [p|]; [destruct (Qeq_bool _ 0)|]; reflexivity.
  - unfold PositionManager.updatePosition.
    destruct ep as [p|]; [destruct (Qeq_bool _ 0)|]; cbn;
      try lra. apply Qabs_nonneg.
  - unfold PositionManager.updatePosition.
    destruct ep as [p|]; [destruct (Qeq_bool _ 0)|]; cbn; ring.
  - intros Hmark Hep.
    assert (Hflat : (0 <= FairPrice.orQ markPrice 0)%Q)
      by (apply orQ_nonneg; [exact Hmark | lra]).
    unfold PositionManager.updatePosition.
    destruct ep as [p|]; [destruct (Qeq_bool _ 0)|]; cbn;
      try (split; [exact Hflat | lra]).
    destruct (Hep p eq_refl) as [Hentry Hpm].
    assert (Hprice : (0 <= FairPrice.orQ markPrice
                            (FairPrice.orQ (Position.markPrice p)
                               (Position.entryPrice p)))%Q).
    { apply orQ_nonneg; [exact Hmark|]. apply orQ_nonneg; assumption. }
    split; [exact Hprice|].
    apply Qmult_le_0_compat; [apply Qabs_nonneg | exact Hprice].
Qed.

(** X14. With the maximum above the close threshold, a manager at its
    maximum is also in close mode and refuses orders on both sides; in close
    mode below the maximum it refuses the side that would add to the
    position (buy when long, sell when short) and allows the other; out of
    close mode it allows both. *)
Theorem canAddPosition_cases :
  forall (pm : PositionManager.t),
    (Config.closeThresholdUsd (PositionManager.config pm)
     < Config.maxPositionUsd (PositionManager.config pm))%Q ->
    (PositionManager.isAtMax pm = true ->
     PositionManager.isCloseMode pm = true
     /\ forall orderSide, PositionManager.canAddPosition pm orderSide = false)
    /\ (PositionManager.isAtMax pm = false ->
        PositionManager.isCloseMode pm = true ->
        match PositionManager.side (PositionManager.position pm) with
        | long =>
            PositionManager.canAddPosition pm buy = false
            /\ PositionManager.canAddPosition pm sell = true
        | short =>
            PositionManager.canAddPosition pm sell = false
            /\ PositionManager.canAddPosition pm buy = true
        | none =>
            forall orderSide, PositionManager.canAddPosition pm orderSide = true
        end)
    /\ (PositionManager.isCloseMode pm = false ->
        forall orderSide, PositionManager.canAddPosition pm orderSide = true).
Proof.
  intros pm Horder. split_and!.
  - intros Hmax. split.
    + unfold PositionManager.isAtMax in Hmax.
      apply Qle_bool_iff in Hmax.
      unfold PositionManager.isCloseMode. apply Qltb_true. lra.
    + intros orderSide. unfold PositionManager.canAddPosition.
      rewrite Hmax. reflexivity.
  - intros Hmax Hclose. unfold PositionManager.canAddPosition.
    rewrite Hmax, Hclose.
    destruct (PositionManager.side (PositionManager.position pm)); auto.
  - intros Hclose orderSide.
    assert (Hmax : PositionManager.isAtMax pm = false).
    { unfold PositionManager.isCloseMode in Hclose.
      apply Qltb_false in Hclose.
      unfold PositionManager.isAtMax. apply Qle_bool_false. lra. }
    unfold PositionManager.canAddPosition. rewrite Hmax, Hclose. reflexivity.
Qed.

Lemma canAddPosition_cases_witness :
  let pm :=
    PositionManager.updatePosition (PositionManager.new Quoter.scenarioConfig)
      (Some (Account.toPosition Account.shortAnswer)) None in
  PositionManager.isCloseMode pm = true
  /\ forall orderSide, PositionManager.canAddPosition pm orderSide = false.
Proof.
  intros pm.
  destruct (canAddPosition_cases pm) as [H _].
  - vm_compute. reflexivity.
  - apply H. vm_compute. reflexivity.
Defined.

(** X15. The quoter and the position manager agree: for a long or short
    position of non-negative notional and the same configuration, the quote
    generated from the manager's signed notional is in close mode exactly
    when the manager is; and when the manager is in close mode with a
    non-negative threshold, the quote has no size on the side the manager
    refuses (no bid when long, no ask when short). *)
Theorem quoter_follows_manager :
  forall (pm : PositionManager.t) (q : Quoter.t) (fairPrice : Q),
    Quoter.config q = PositionManager.config pm ->
    PositionManager.side (PositionManager.position pm) <> none ->
    (0 <= PositionManager.notional (PositionManager.position pm))%Q ->
    let quote :=
      Quoter.generateQuotes q fairPrice
        (PositionManager.getSignedNotional pm) in
    Quoter.isCloseMode quote = PositionManager.isCloseMode pm
    /\ ((0 <= Config.closeThresholdUsd (PositionManager.config pm))%Q ->
        PositionManager.isCloseMode pm = true ->
        match PositionManager.side (PositionManager.position pm) with
        | long =>
            (Quoter.bidSize quote == 0)%Q
            /\ PositionManager.canAddPosition pm buy = false
        | short =>
            (Quoter.askSize quote == 0)%Q
            /\ PositionManager.canAddPosition pm sell = false
        | none => True
        end).
Proof.
  intros pm q fairPrice Hcfg Hside Hnot. cbn zeta.
  set (n := PositionManager.notional (PositionManager.position pm)) in *.
  assert (Habs : (Qabs (PositionManager.getSignedNotional pm) == n)%Q).
  { unfold PositionManager.getSignedNotional. fold n.
    destruct (PositionManager.side (PositionManager.position pm)).
    - apply Qabs_pos. exact Hnot.
    - rewrite Qabs_opp. apply Qabs_pos. exact Hnot.
    - contradiction. }
  assert (Hmode : Quoter.isCloseMode
                    (Quoter.generateQuotes q fairPrice
                       (PositionManager.getSignedNotional pm))
                  = PositionManager.isCloseMode pm).
  { rewrite generateQuotes_mode. unfold PositionManager.isCloseMode.
    fold n. rewrite Hcfg. unfold Qltb. rewrite Habs. reflexivity. }
  split; [exact Hmode|].
  intros Hthr Hclose.
  assert (Hn : (Config.closeThresholdUsd (PositionManager.config pm) < n)%Q).
  { unfold PositionManager.isCloseMode in Hclose. fold n in Hclose.
    apply Qltb_true in Hclose. exact Hclose. }
  assert (Hq : (Config.closeThresholdUsd (Quoter.config q)
                < Qabs (PositionManager.getSignedNotional pm))%Q)
    by (rewrite Hcfg, Habs; exact Hn).
  destruct (generateQuotes_close q fairPrice _ Hq)
    as (_ & _ & _ & _ & Hlong & Hshort).
  unfold PositionManager.canAddPosition. rewrite Hclose.
  unfold PositionManager.getSignedNotional in Hlong, Hshort |- *.
  fold n in Hlong, Hshort |- *.
  destruct (PositionManager.side (PositionManager.position pm)).
  - split; [apply Hlong; lra|]. destruct (PositionManager.isAtMax pm);
      reflexivity.
  - split; [apply Hshort; lra|]. destruct (PositionManager.isAtMax pm);
      reflexivity.
  - exact I.
Qed.

Lemma quoter_follows_manager_witness :
  let pm :=
    PositionManager.updatePosition (PositionManager.new Quoter.scenarioConfig)
      (Some (Account.toPosition Account.shortAnswer)) None in
  Quoter.isCloseMode
    (Quoter.generateQuotes (Quoter.new Quoter.scenarioConfig) 51000
       (PositionManager.getSignedNotional pm)) = true.
Proof.
  intros pm.
  destruct (quoter_follows_manager pm (Quoter.new Quoter.scenarioConfig) 51000)
    as [H _].
  - reflexivity.
  - vm_compute. discriminate.
  - vm_compute. discriminate.
  - rewrite H. vm_compute. reflexivity.
Defined.

(** X24. In exact arithmetic and with a positive maximum, the manager is
    at its maximum exactly when its utilization is at least one. *)
Theorem isAtMax_utilization :
  forall (pm : PositionManager.t),
    (0 < Config.maxPositionUsd (PositionManager.config pm))%Q ->
    (PositionManager.isAtMax pm = true
     <-> (1 <= PositionManager.getUtilization pm)%Q).
Proof.
  intros pm Hmax. unfold PositionManager.isAtMax, PositionManager.getUtilization.
  rewrite Qle_bool_iff.
  set (n := PositionManager.notional (PositionManager.position pm)).
  set (m := Config.maxPositionUsd (PositionManager.config pm)) in *.
  split.
  - intros H. apply Qle_shift_div_l; [exact Hmax | lra].
  - intros H. apply (Qmult_le_compat_r _ _ m) in H; [|lra].
    assert (E : (n / m * m == n)%Q) by (field; lra).
    rewrite E in H. lra.
Qed.

Lemma isAtMax_utilization_witness :
  (1 <= PositionManager.getUtilization
          (PositionManager.updatePosition
             (PositionManager.new Quoter.scenarioConfig)
             (Some (Account.toPosition Account.shortAnswer)) None))%Q.
Proof.
  apply (isAtMax_utilization
           (PositionManager.updatePosition
              (PositionManager.new Quoter.scenarioConfig)
              (Some (Account.toPosition Account.shortAnswer)) None)).
  - reflexivity.
  - vm_compute. reflexivity.
Defined.

(** * The Aftermath account *)





(** X17. The account lookup is cached per wallet.  After a call that
    succeeds, the answer carries the wallet it was asked for and every later
    call for that wallet gets the same answer without looking at what the
    venue would say; a call that throws (no capability or no account among
    the venue's accounts) leaves the cache as it was; the answer of a
    lookup that reached the venue names the first capability and the first
    account listed. *)
Theorem getAccountCap_cached :
  forall (cache : option Account.AccountCache)
         (accounts : list Account.AftermathAccount) (wallet : string),
    (forall found cache',
       Account.getAccountCap cache accounts wallet
       = (Account.Value found, cache') ->
       Account.walletAddress found = wallet
       /\ cache' = Some found
       /\ forall later : list Account.AftermathAccount,
            Account.getAccountCap cache' later wallet
            = (Account.Value found, cache'))
    /\ (forall message cache',
          Account.getAccountCap cache accounts wallet
          = (Account.Thrown message, cache') ->
          cache' = cache)
    /\ (forall found cache',
          Account.getAccountCap (Account.clearAccountCache cache) accounts wallet
          = (Account.Value found, cache') ->
          exists cap acc,
            List.find (fun a => match Account.type a with
                                | Account.capability => true
                                | Account.account => false
                                end) accounts = Some cap
            /\ List.find (fun a => match Account.type a with
                                   | Account.account => true
                                   | Account.capability => false
                                   end) accounts = Some acc
            /\ Account.accountCapId found = Account.id cap
            /\ Account.accountId found = Account.id acc
            /\ Account.cachedAccountNumber found = Account.accountNumber cap).
Proof.
  intros cache accounts wallet.
  assert (Hhit : forall found later,
            Account.walletAddress found = wallet ->
            Account.getAccountCap (Some found) later wallet
            = (Account.Value found, Some found)).
  { intros found later Hw. unfold Account.getAccountCap.
    rewrite bool_decide_eq_true_2 by exact Hw. reflexivity. }
  assert (Hfound : forall c0 found cache',
            Account.discoverAccountCap c0 accounts wallet
            = (Account.Value found, cache') ->
            Account.walletAddress found = wallet /\ cache' = Some found).
  { intros c0 found cache' Hf. unfold Account.discoverAccountCap in Hf.
    cbn zeta in Hf.
    destruct (List.find _ accounts) as [cap|]; [|discriminate].
    destruct (List.find _ accounts) as [acc|]; [|discriminate].
    injection Hf as <- <-. split; reflexivity. }
  assert (Hthrown : forall c0 message cache',
            Account.discoverAccountCap c0 accounts wallet
            = (Account.Thrown message, cache') -> cache' = c0).
  { intros c0 message cache' Hf. unfold Account.discoverAccountCap in Hf.
    cbn zeta in Hf.
    destruct (List.find _ accounts) as [cap|];
      [destruct (List.find _ accounts) as [acc|]|];
      try discriminate; injection Hf as _ <-; reflexivity. }
  split_and!.
  - intros found cache' H. unfold Account.getAccountCap in H.
    assert (Hres : Account.walletAddress found = wallet
                   /\ cache' = Some found).
    { destruct cache as [cached|]; [|exact (Hfound _ _ _ H)].
      case_bool_decide as Hw; [|exact (Hfound _ _ _ H)].
      injection H as <- <-. split; [exact Hw | reflexivity]. }
    destruct Hres as [Hw ->]. split_and!; [exact Hw | reflexivity|].
    intros later. apply Hhit. exact Hw.
  - intros message cache' H. unfold Account.getAccountCap in H.
    destruct cache as [cached|]; [|exact (Hthrown _ _ _ H)].
    case_bool_decide; [discriminate | exact (Hthrown _ _ _ H)].
  - intros found cache' H. unfold Account.clearAccountCache in H.
    unfold Account.getAccountCap, Account.discoverAccountCap in H.
    cbn zeta in H.
    destruct (List.find _ accounts) as [cap|]; [|discriminate].
    destruct (List.find _ accounts) as [acc|]; [|discriminate].
    injection H as <- _. exists cap, acc. split_and!; reflexivity.
Qed.

Lemma getAccountCap_cached_witness :
  exists found cache',
    Account.getAccountCap None Account.walletAccounts "0xwallet"
    = (Account.Value found, cache')
    /\ Account.accountCapId found = "0xcap"
    /\ Account.getAccountCap cache' [] "0xwallet"
       = (Account.Value found, cache').
Proof.
  eexists _, _. split; [reflexivity|]. split; [reflexivity|].
  destruct (getAccountCap_cached None Account.walletAccounts "0xwallet")
    as [H _].
  destruct (H _ _ eq_refl) as (_ & _ & Hlater).
  apply Hlater.
Defined.

(** * Further properties of the fair price *)

(** X18. The remaining warm-up time is never negative, is zero exactly
    when the elapsed time has reached the warm-up period, does not grow as
    the clock advances, and is zero whenever [getFairPrice] answers a
    price. *)
Theorem getWarmupRemainingMs_facts :
  forall (c : FairPriceCalculator) (now later : Z),
    (0 <= getWarmupRemainingMs c now)%Q
    /\ ((getWarmupRemainingMs c now == 0)%Q
        <-> (warmupMs c <= inject_Z (getElapsedMs c now))%Q)
    /\ ((now <= later)%Z ->
        (getWarmupRemainingMs c later <= getWarmupRemainingMs c now)%Q)
    /\ (forall price,
          getFairPrice c now = Some price ->
          getWarmupRemainingMs c now = 0%Q).
Proof.
  intros c now later.
  assert (Hcases : forall t,
    (Qltb 0 (warmupMs c - inject_Z (getElapsedMs c t)) = true
     /\ getWarmupRemainingMs c t = (warmupMs c - inject_Z (getElapsedMs c t))%Q
     /\ (inject_Z (getElapsedMs c t) < warmupMs c)%Q)
    \/ (Qltb 0 (warmupMs c - inject_Z (getElapsedMs c t)) = false
        /\ getWarmupRemainingMs c t = 0%Q
        /\ (warmupMs c <= inject_Z (getElapsedMs c t))%Q)).
  { intros t. unfold getWarmupRemainingMs. cbn zeta.
    destruct (Qltb 0 _) eqn:E.
    - left. apply Qltb_true in E. split_and!; [reflexivity..|lra].
    - right. apply Qltb_false in E. split_and!; [reflexivity..|lra]. }
  assert (Hmono : (now <= later)%Z ->
                  (inject_Z (getElapsedMs c now)
                   <= inject_Z (getElapsedMs c later))%Q).
  { intros H. rewrite <- Zle_Qle. unfold getElapsedMs. lia. }
  split_and!.
  - destruct (Hcases now) as [(_ & -> & H) | (_ & -> & H)]; lra.
  - destruct (Hcases now) as [(_ & -> & H) | (_ & -> & H)]; split; intros;
      lra.
  - intros Hle. specialize (Hmono Hle).
    destruct (Hcases now) as [(_ & -> & H1) | (_ & -> & H1)];
      destruct (Hcases later) as [(_ & -> & H2) | (_ & -> & H2)]; lra.
  - intros price Hp.
    destruct (Hcases now) as [(_ & _ & H) | (_ & E & _)]; [|exact E].
    exfalso. unfold getFairPrice, isReady, isWarmedUp in Hp. cbn zeta in Hp.
    assert (Hw : Qle_bool (warmupMs c) (inject_Z (now - startTime c)) = false)
      by (apply Qle_bool_false; exact H).
    rewrite Hw in Hp. rewrite andb_false_r in Hp. discriminate.
Qed.

Lemma deliver_lastUpdateTime ticks : forall c,
  lastUpdateTime (deliver c ticks)
  = match last ticks.*2 with
    | Some t => Some t
    | None => lastUpdateTime c
    end.
Proof.
  induction ticks as [|tick rest IH]; intros c.
  - reflexivity.
  - change (deliver c (tick :: rest))
      with (deliver (updateEMA c (fst tick) (snd tick)) rest).
    rewrite IH. cbn [updateEMA lastUpdateTime].
    destruct rest as [|tick' rest']; [reflexivity|].
    change (last (tick :: tick' :: rest').*2) with (last (tick' :: rest').*2).
    destruct (last (tick' :: rest').*2) eqn:E; [reflexivity|].
    apply last_None in E. discriminate E.
Qed.

(** X19. Book-keeping of the calculator: after any run of ticks the price
    count is the number of ticks delivered, the last update time is the
    timestamp of the last tick (none before the first), the start time is
    the one of construction, and the average is unset exactly when no tick
    has been delivered. *)
Theorem deliver_bookkeeping :
  forall (symbol : string) (config : option FairPriceConfig.t) (start : Z)
         (ticks : list (Q * Z)),
    let c := deliver (constructor symbol config start) ticks in
    getPriceCount c = length ticks
    /\ getLastUpdateTime c = last ticks.*2
    /\ startTime c = start
    /\ (ema c = None <-> ticks = []).
Proof.
  intros symbol config start ticks. cbn zeta.
  set (c0 := constructor symbol config start).
  destruct (deliver_fields c0 ticks) as (_ & _ & _ & Hstart & Hcount).
  split_and!.
  - exact Hcount.
  - unfold getLastUpdateTime. rewrite deliver_lastUpdateTime.
    destruct (last ticks.*2); reflexivity.
  - exact Hstart.
  - split.
    + intros He. destruct ticks as [|tick rest]; [reflexivity|].
      exfalso. apply (deliver_ema_set c0 (tick :: rest)); [|exact He].
      right. discriminate.
    + intros ->. reflexivity.
Qed.

(** *** The smoothing factor *)

(** X20. Without an explicit [alpha] and with a window of at least one
    second, the smoothing factor the constructor chooses lies in (0, 1],
    and no tick changes it: the calculator keeps a factor in (0, 1] for as
    long as it lives. *)
Theorem default_alpha_range :
  forall (symbol : string) (config : option FairPriceConfig.t) (start : Z)
         (ticks : list (Q * Z)),
    config ≫= FairPriceConfig.alpha = None ->
    (1000 <= orQ (config ≫= FairPriceConfig.windowMs) DEFAULT_WINDOW_MS)%Q ->
    (0 < alpha (deliver (constructor symbol config start) ticks) <= 1)%Q.
Proof.
  intros symbol config start ticks Hnone Hwin.
  destruct (deliver_fields (constructor symbol config start) ticks)
    as (Halpha & _).
  rewrite Halpha. unfold constructor. cbn [alpha]. rewrite Hnone.
  cbn [orQ].
  set (w := orQ (config ≫= FairPriceConfig.windowMs) DEFAULT_WINDOW_MS) in *.
  assert (Hden : (0 < w / 1000 + 1)%Q).
  { assert (0 <= w / 1000)%Q
      by (apply Qle_shift_div_l; [reflexivity | lra]). lra. }
  split.
  - apply Qlt_shift_div_l; [exact Hden | lra].
  - apply Qle_shift_div_r; [exact Hden|].
    assert (1 <= w / 1000)%Q
      by (apply Qle_shift_div_l; [reflexivity | lra]). lra.
Qed.

Lemma default_alpha_range_witness :
  (0 < alpha (deliver (constructor "BTC" (Some shortWindow) 0)
                [(100%Q, 1%Z); (200%Q, 2%Z)]) <= 1)%Q.
Proof.
  apply (default_alpha_range "BTC" (Some shortWindow) 0
           [(100%Q, 1%Z); (200%Q, 2%Z)]).
  - reflexivity.
  - vm_compute. discriminate.
Defined.
